(** * dvc-availability-alerts: a shallow embedding of the polling script

  The script polls a remote availability service, filters the rows it
  gets through a fixed sequence of pandas filters, and notifies through
  Pushover when the rendered table differs from the one remembered in a
  one-table SQLite database.

  Layout of the development:
  - [Text]: ASCII case folding and case-insensitive substring search;
  - [Re]: a fragment of Python's [re] syntax with a derivative matcher
    ([Series.str.contains] is called with its default [regex=True] and
    with [case=False]);
  - [Script]: the functions of [dvc-availability-alerts.py], in a state
    and exception monad that records every outside effect in a trace;
    the [re], [datetime] and [to_string] calls are parameters;
  - [Samples]: concrete library stand-ins and inputs for the examples;
  - [ReFacts], [StoreFacts], [ScriptFacts]: lemmas about the matcher,
    the parser, the table and the functions of the script;
  - [FilterProperties], [ChangeProperties]: the properties of the filter
    pipeline, of change detection and of the polling loop;
  - [Examples]: the properties at work on the sample inputs;
  - [StoreProperties], [FetchProperties], [RunProperties]: further
    properties of the store, of the fetch and its filters, and of whole
    runs of the loop, with [MoreExamples] for the sample inputs. *)

From Stdlib Require Import Ascii ZArith Bool Lia.
From stdpp Require Import base option list strings pretty sets.

(* ===================================================================== *)
(** ** Text: characters and case-insensitive search *)
(* ===================================================================== *)

Module Text.

(** Python strings are sequences of code points; the model works with
    ASCII text, where case folding touches the letters only. *)
Definition lower (c : ascii) : ascii :=
  let n := nat_of_ascii c in
  if (65 <=? n)%nat && (n <=? 90)%nat then ascii_of_nat (n + 32) else c.

Definition eq_ci (a b : ascii) : bool :=
  if decide (lower a = lower b) then true else false.

Definition newline : ascii := ascii_of_nat 10.

(** [needle] is a prefix of [hay], letter case ignored. *)
Fixpoint prefix_ci (needle hay : string) : bool :=
  match needle, hay with
  | EmptyString, _ => true
  | String _ _, EmptyString => false
  | String a needle', String b hay' => eq_ci a b && prefix_ci needle' hay'
  end.

(** [needle in hay], letter case ignored: Python's
    [needle.lower() in hay.lower()] on ASCII text. *)
Fixpoint contains_ci (needle hay : string) : bool :=
  prefix_ci needle hay
  || match hay with
     | EmptyString => false
     | String _ hay' => contains_ci needle hay'
     end.

Fixpoint lower_str (s : string) : string :=
  match s with
  | EmptyString => EmptyString
  | String c s' => String (lower c) (lower_str s')
  end.

(** [sep.join(parts)] *)
Fixpoint join (sep : string) (parts : list string) : string :=
  match parts with
  | [] => ""
  | [p] => p
  | p :: rest => p +:+ sep +:+ join sep rest
  end.

End Text.

(* ===================================================================== *)
(** ** Re: the modelled fragment of Python regular expressions *)
(* ===================================================================== *)

Module Re.
Import Text.

(** Abstract syntax after [re.compile(pat, re.IGNORECASE)]: literals
    compare with case folded, [Dot] is [.] without DOTALL. [Void]
    matches nothing and only arises from derivatives. *)
Inductive regex : Type :=
| Void
| Eps
| Lit (c : ascii)
| Dot
| Cat (r1 r2 : regex)
| Alt (r1 r2 : regex)
| Star (r : regex).

Fixpoint nullable (r : regex) : bool :=
  match r with
  | Void => false
  | Eps => true
  | Lit _ => false
  | Dot => false
  | Cat r1 r2 => nullable r1 && nullable r2
  | Alt r1 r2 => nullable r1 || nullable r2
  | Star _ => true
  end.

(** Brzozowski derivative of [r] by the text character [x]. *)
Fixpoint deriv (x : ascii) (r : regex) : regex :=
  match r with
  | Void => Void
  | Eps => Void
  | Lit c => if eq_ci c x then Eps else Void
  | Dot => if decide (x = newline) then Void else Eps
  | Cat r1 r2 =>
      if nullable r1
      then Alt (Cat (deriv x r1) r2) (deriv x r2)
      else Cat (deriv x r1) r2
  | Alt r1 r2 => Alt (deriv x r1) (deriv x r2)
  | Star r1 => Cat (deriv x r1) (Star r1)
  end.

(** Some prefix of [s] is matched by [r]: [pattern.match(s)]. *)
Fixpoint match_here (r : regex) (s : string) : bool :=
  nullable r
  || match s with
     | EmptyString => false
     | String x s' => match_here (deriv x r) s'
     end.

(** Some substring of [s] is matched by [r]:
    [pattern.search(s) is not None]. *)
Fixpoint search (r : regex) (s : string) : bool :=
  match_here r s
  || match s with
     | EmptyString => false
     | String _ s' => search r s'
     end.

(** What the matcher decides: [matches r s] says that [r] matches the
    whole of [s] (lemmas [match_here_matches] and [search_matches]). *)
Inductive matches : regex -> string -> Prop :=
| matches_Eps : matches Eps ""
| matches_Lit c x : eq_ci c x = true -> matches (Lit c) (String x "")
| matches_Dot x : x <> newline -> matches Dot (String x "")
| matches_Cat r1 r2 s1 s2 :
    matches r1 s1 -> matches r2 s2 -> matches (Cat r1 r2) (s1 +:+ s2)
| matches_Alt_l r1 r2 s : matches r1 s -> matches (Alt r1 r2) s
| matches_Alt_r r1 r2 s : matches r2 s -> matches (Alt r1 r2) s
| matches_Star_nil r : matches (Star r) ""
| matches_Star_more r s1 s2 :
    matches r s1 -> matches (Star r) s2 -> matches (Star r) (s1 +:+ s2).

(** *** Parsing

    The parser follows [sre_parse] from left to right over the
    characters of the pattern, with an explicit stack of open groups.
    Each item of a branch remembers whether it is a repeat, since a
    quantifier applied to a repeat is "multiple repeat". *)

Record frame : Type := mkFrame {
  done_branches : list regex;        (* branches closed by [|], last first *)
  items : list (regex * bool)        (* items of the open branch, last first *)
}.

Definition empty_frame : frame := mkFrame [] [].

Definition branch_regex (its : list (regex * bool)) : regex :=
  fold_left (fun acc it => Cat (fst it) acc) its Eps.

Definition frame_regex (f : frame) : regex :=
  fold_left (fun acc b => Alt b acc) (done_branches f)
            (branch_regex (items f)).

Definition push_item (r : regex) (f : frame) : frame :=
  mkFrame (done_branches f) ((r, false) :: items f).

Definition next_branch (f : frame) : frame :=
  mkFrame (branch_regex (items f) :: done_branches f) [].

Inductive quantifier : Type := QStar | QPlus | QOpt.

Definition quantify (q : quantifier) (r : regex) : regex :=
  match q with
  | QStar => Star r
  | QPlus => Cat r (Star r)
  | QOpt => Alt r Eps
  end.

(** What [re.compile] does with a pattern: a compiled expression, the
    exception [re.error], or a pattern that uses syntax this model does
    not cover (classes, anchors, counted repeats, extension groups,
    letter and digit escapes, possessive repeats). *)
Inductive compiled : Type :=
| Compiled (r : regex)
| BadPattern
| NotModelled.

Definition is_alnum (c : ascii) : bool :=
  let n := nat_of_ascii c in
  ((48 <=? n) && (n <=? 57) || (65 <=? n) && (n <=? 90)
   || (97 <=? n) && (n <=? 122))%nat.

Definition as_quantifier (c : ascii) : option quantifier :=
  if decide (c = "*"%char) then Some QStar
  else if decide (c = "+"%char) then Some QPlus
  else if decide (c = "?"%char) then Some QOpt
  else None.

(** SPECIAL_CHARS of [sre_parse]: [.\[{()*+?^$|]. *)
Definition special (c : ascii) : bool :=
  if decide (c ∈ ["."; "\"; "["; "{"; "("; ")"; "*"; "+"; "?"; "^"; "$"; "|"]%char)
  then true else false.

Definition apply_quantifier (q : quantifier) (f : frame) : option frame :=
  match items f with
  | [] => None                                  (* nothing to repeat *)
  | (_, true) :: _ => None                      (* multiple repeat *)
  | (r, false) :: its =>
      Some (mkFrame (done_branches f) ((quantify q r, true) :: its))
  end.

Fixpoint parse (p : string) (top : frame) (stack : list frame) : compiled :=
  match p with
  | EmptyString =>
      match stack with
      | [] => Compiled (frame_regex top)
      | _ :: _ => BadPattern                    (* missing ) *)
      end
  | String c p' =>
      if decide (c = "\"%char) then
        match p' with
        | EmptyString => BadPattern             (* bad escape (end of pattern) *)
        | String e p'' =>
            if is_alnum e then NotModelled
            else parse p'' (push_item (Lit e) top) stack
        end
      else if decide (c = "."%char) then parse p' (push_item Dot top) stack
      else if decide (c = "|"%char) then parse p' (next_branch top) stack
      else if decide (c = "("%char) then
        match p' with
        | String "?" _ => NotModelled           (* extension group *)
        | _ => parse p' empty_frame (top :: stack)
        end
      else if decide (c = ")"%char) then
        match stack with
        | [] => BadPattern                      (* unbalanced parenthesis *)
        | parent :: stack' =>
            parse p' (push_item (frame_regex top) parent) stack'
        end
      else match as_quantifier c with
      | Some q =>
          match apply_quantifier q top with
          | None => BadPattern
          | Some top' =>
              match p' with
              | String "?" p'' => parse p'' top' stack      (* lazy repeat *)
              | String "+" _ => NotModelled                 (* possessive *)
              | _ => parse p' top' stack
              end
          end
      | None =>
          if special c then NotModelled         (* one of [ { ^ $ *)
          else parse p' (push_item (Lit c) top) stack
      end
  end.

Definition compile (pat : string) : compiled := parse pat empty_frame [].

(** A literal pattern, as a regex: its characters in sequence. *)
Fixpoint literal (s : string) : regex :=
  match s with
  | EmptyString => Eps
  | String c s' => Cat (Lit c) (literal s')
  end.

Fixpoint plain (s : string) : bool :=
  match s with
  | EmptyString => true
  | String c s' => negb (special c) && plain s'
  end.

(** [literal s] followed by [tail]. *)
Fixpoint literal_onto (s : string) (tail : regex) : regex :=
  match s with
  | EmptyString => tail
  | String c s' => Cat (Lit c) (literal_onto s' tail)
  end.

(** The frame after a run of ordinary characters. *)
Fixpoint push_literal (p : string) (f : frame) : frame :=
  match p with
  | EmptyString => f
  | String c p' => push_literal p' (push_item (Lit c) f)
  end.

(** The alternation [k1|k2|...|kn] of literal keywords. *)
Fixpoint alternatives (first : string) (others : list string) : regex :=
  match others with
  | [] => literal first
  | k :: others' => Alt (literal first) (alternatives k others')
  end.

(** The library restricted to the modelled fragment; a pattern outside
    the fragment is treated as rejected. It is the instance of the
    library the examples run on. *)
Definition fragment_search (pat : string) : option (string -> bool) :=
  match compile pat with
  | Compiled r => Some (search r)
  | BadPattern => None
  | NotModelled => None
  end.

(** [lib] does what Python's [re] does wherever the model says what
    that is. *)
Definition agrees (lib : string -> option (string -> bool)) : Prop :=
  forall pat,
    match compile pat with
    | Compiled r => exists f, lib pat = Some f /\ forall s, f s = search r s
    | BadPattern => lib pat = None
    | NotModelled => True
    end.

(** Text made of ASCII characters only. *)
Fixpoint ascii_text (s : string) : bool :=
  match s with
  | EmptyString => true
  | String c s' => (nat_of_ascii c <? 128)%nat && ascii_text s'
  end.

(** [lib] does on ASCII patterns and ASCII text what the model says
    Python's [re] does there. *)
Definition agrees_on_ascii (lib : string -> option (string -> bool)) : Prop :=
  forall pat,
    ascii_text pat = true ->
    match compile pat with
    | Compiled r =>
        exists f, lib pat = Some f
                  /\ forall s, ascii_text s = true -> f s = search r s
    | BadPattern => lib pat = None
    | NotModelled => True
    end.

End Re.

(* ===================================================================== *)
(** ** Script: the functions of dvc-availability-alerts.py *)
(* ===================================================================== *)

Module Script.
Import Text Re.

(** *** Data *)

(** One value of the JSON object the service answers with. The text
    fields are strings, and [None] when the key is missing or null; the
    nested [Availability] object is [None] when the key is missing, and
    holds its ["availability"] entry otherwise. *)
Record Entry : Type := mkEntry {
  entry_ResortName : option string;
  entry_RoomType : option string;
  entry_ViewType : option string;
  entry_Points : option Z;
  entry_Availability : option (option string)
}.

(** One row of the data frame built from the entries. *)
Record Row : Type := mkRow {
  ResortName : option string;
  RoomType : option string;
  ViewType : option string;
  Points : option Z;
  Availability : option string
}.

#[global] Instance Row_eq_dec : EqDecision Row.
Proof. solve_decision. Defined.

Record PushoverConfig : Type := mkPushover {
  user_key : string;
  api_token : string
}.

(** One element of [config["alerts"]]. [None] is a missing key. The
    [name] entry is text or null: [Some None] is the key present with no
    value. *)
Record AlertConfig : Type := mkAlert {
  cfg_name : option (option string);
  cfg_start_date : option string;
  cfg_end_date : option string;
  cfg_room_type : option string;
  cfg_exclude_non_wdw : option bool;
  cfg_resort_names : option (list string);
  cfg_pushover : option PushoverConfig
}.

(** What [response.json()] makes of the body: an exception when the body
    is no JSON, a value without [.values()] when it is JSON but no object
    (a list, a number, a string, null), or the entries of the object in
    their order. *)
Inductive body : Type :=
| NotJson
| JsonOther
| JsonObject (data : list Entry).

Record Response : Type := mkResponse {
  status_code : Z;
  json : body
}.

(** What [yaml.safe_load] gave: no mapping (an empty file gives [None]),
    or a mapping, of which the script reads the [alerts] entry: missing
    ([None]), present with no value ([Some None]), or a list. *)
Inductive Config : Type :=
| NotMapping
| Mapping (alerts : option (option (list AlertConfig))).

(** What lies outside the process during one poll cycle: the clock, the
    availability service ([None]: [requests.get] raises) and the Pushover
    service ([false]: [send_message] raises). *)
Record World : Type := mkWorld {
  now : string;
  requests_get : string -> option Response;
  send_message : string -> PushoverConfig -> bool
}.

(** *** Effects *)

Inductive exn : Type :=
| KeyError (key : string)
| AttributeError
| TypeError
| ConnectionError
| JSONDecodeError
| ReError
| PushoverError.

(** Every effect that leaves the process, in the order it happens.
    [Commit] is the upsert of [update_last_result] with its
    [conn.commit()]. *)
Inductive event : Type :=
| HttpGet (url : string)
| Print (line : string)
| Commit (alert_name : option string) (result_str : string)
| Push (message : string) (target : PushoverConfig)
| Sleep (seconds : Z).

(** A row of the table [alerts]. The column [alert_name] is a [TEXT
    PRIMARY KEY] of an ordinary SQLite table, which admits NULL
    ([None]); [last_result] only ever receives text. *)
Record Stored : Type := mkStored {
  stored_name : option string;
  stored_result : string
}.

(** [db] is the table [alerts], its rows in the order they were
    inserted. *)
Record state : Type := mkState {
  db : list Stored;
  trace : list event
}.

(** A call returns or raises. *)
Inductive outcome (A : Type) : Type :=
| Returned (a : A)
| Raised (e : exn).
Arguments Returned {A} a.
Arguments Raised {A} e.

Definition M (A : Type) : Type := state -> state * outcome A.

Definition ret {A} (a : A) : M A := fun st => (st, Returned a).

Definition raise {A} (e : exn) : M A := fun st => (st, Raised e).

Definition bind {A B} (m : M A) (k : A -> M B) : M B :=
  fun st =>
    match m st with
    | (st', Returned a) => k a st'
    | (st', Raised e) => (st', Raised e)
    end.

Definition lift {A} (o : outcome A) : M A := fun st => (st, o).

Definition emit (ev : event) : M unit :=
  fun st => (mkState (db st) (trace st ++ [ev]), Returned tt).

Notation "x <- m ;; k" := (bind m (fun x => k))
  (at level 100, m at next level, right associativity).
Notation "m ;;; k" := (bind m (fun _ => k))
  (at level 100, right associativity).

Definition print (line : string) : M unit := emit (Print line).

(** [d[key]] on a configuration dictionary. *)
Definition subscript {A} (key : string) (v : option A) : M A :=
  match v with
  | Some a => ret a
  | None => raise (KeyError key)
  end.

(** *** The store *)

(** [CREATE TABLE IF NOT EXISTS]: the table found in the file, or an
    empty one. *)
Definition initialize_db (file : option (list Stored)) : list Stored :=
  default [] file.

(** The comparison [alert_name = ?] of SQL: true for two equal texts;
    with NULL on either side it is not true. The uniqueness of the
    primary key is decided with the same comparison, so that NULL keys
    never conflict. *)
Definition sql_eq (a b : option string) : bool :=
  match a, b with
  | Some x, Some y => if decide (x = y) then true else false
  | _, _ => false
  end.

(** [SELECT last_result FROM alerts WHERE alert_name = ?] with
    [fetchone] and [row[0] if row else None]: the result of the first
    row whose name compares equal to the parameter. *)
Fixpoint select_last_result (rows : list Stored) (alert_name : option string)
  : option string :=
  match rows with
  | [] => None
  | r :: rest =>
      if sql_eq (stored_name r) alert_name then Some (stored_result r)
      else select_last_result rest alert_name
  end.

(** [INSERT ... ON CONFLICT(alert_name) DO UPDATE SET last_result =
    excluded.last_result]: the row that conflicts with the new name has
    its result replaced; without a conflict the new row is added. *)
Fixpoint upsert (rows : list Stored) (alert_name : option string)
    (result_str : string) : list Stored :=
  match rows with
  | [] => [mkStored alert_name result_str]
  | r :: rest =>
      if sql_eq (stored_name r) alert_name
      then mkStored (stored_name r) result_str :: rest
      else r :: upsert rest alert_name result_str
  end.

Definition fetch_last_result (alert_name : option string)
  : M (option string) :=
  fun st => (st, Returned (select_last_result (db st) alert_name)).

Definition update_last_result (alert_name : option string)
    (result_str : string) : M unit :=
  fun st =>
    (mkState (upsert (db st) alert_name result_str)
             (trace st ++ [Commit alert_name result_str]),
     Returned tt).

(** *** The filters *)

Definition obind {A B} (o : outcome A) (k : A -> outcome B) : outcome B :=
  match o with
  | Returned a => k a
  | Raised e => Raised e
  end.

Definition exclude_keywords : list string :=
  ["Aulani"; "Beach"; "Disneyland"; "Hilton"; "Californian"].

Definition row_of_entry (entry : Entry) : Row :=
  mkRow (entry_ResortName entry) (entry_RoomType entry)
        (entry_ViewType entry) (entry_Points entry)
        (default None (entry_Availability entry)).

Definition is_full (r : Row) : bool :=
  if decide (Availability r = Some "Full") then true else false.

(** Truth value of an optional string and of an optional list. *)
Definition truthy_str (o : option string) : option string :=
  match o with
  | Some s => if decide (s = "") then None else Some s
  | None => None
  end.

Definition truthy_list (o : option (list string)) : option (list string) :=
  match o with
  | Some (x :: l) => Some (x :: l)
  | _ => None
  end.

(** What [fetch_resort_info] returns: a message, or a frame. *)
Inductive fetched : Type :=
| Message (text : string)
| Frame (df : list Row).

Section Libraries.

(** Three library calls are kept as parameters:
    - [re_search pat] is [re.compile(pat, re.IGNORECASE)] together with
      [.search(s) is not None], [None] when the pattern is rejected with
      [re.error];
    - [reformat_date s] is
      [datetime.strptime(s, "%Y-%m-%d").strftime("%Y%m%d")], [None] when
      [strptime] raises [ValueError];
    - [to_string] is [DataFrame.to_string(index=False)], taken as a
      function of the rows of the filtered frame (pandas formats a
      column by the type it inferred when the frame was built, which two
      frames made from the same answer share). *)
Variable re_search : string -> option (string -> bool).
Variable reformat_date : string -> option string.
Variable to_string : list Row -> string.

(** [Series.str.contains(pat, case=False, na=False)]: the pattern is
    compiled before any cell is looked at; a missing cell gives
    [False]. *)
Definition str_contains (pat : string) : outcome (option string -> bool) :=
  match re_search pat with
  | Some f =>
      Returned (fun cell =>
                  match cell with
                  | Some s => f s
                  | None => false
                  end)
  | None => Raised ReError
  end.

Definition filter_room_type (room_type_filter : option string)
    (df : list Row) : outcome (list Row) :=
  match truthy_str room_type_filter with
  | Some pat =>
      obind (str_contains pat) (fun f =>
      Returned (List.filter (fun r => f (RoomType r)) df))
  | None => Returned df
  end.

Definition filter_exclude_non_wdw (exclude_non_wdw : bool)
    (df : list Row) : outcome (list Row) :=
  if exclude_non_wdw then
    let pattern := join "|" exclude_keywords in
    obind (str_contains pattern) (fun f =>
    Returned (List.filter (fun r => negb (f (ResortName r))) df))
  else Returned df.

Definition filter_resort_name (resort_name_filter : option (list string))
    (df : list Row) : outcome (list Row) :=
  match truthy_list resort_name_filter with
  | Some names =>
      let pattern := join "|" names in
      obind (str_contains pattern) (fun f =>
      Returned (List.filter (fun r => f (ResortName r)) df))
  | None => Returned df
  end.

(** Lines 57 to 88: from the parsed body to the filtered frame. A frame
    built from no entries has no columns, and selecting the column
    ["Availability"] raises. *)
Definition process_data (data : list Entry) (room_type_filter : option string)
    (exclude_non_wdw : bool) (resort_name_filter : option (list string))
  : outcome (list Row) :=
  let resorts := map row_of_entry data in
  match resorts with
  | [] => Raised (KeyError "Availability")
  | _ :: _ =>
      let df := List.filter is_full resorts in
      obind (filter_room_type room_type_filter df) (fun df =>
      obind (filter_exclude_non_wdw exclude_non_wdw df) (fun df =>
      filter_resort_name resort_name_filter df))
  end.

(** The row test each filter setting stands for. *)
Definition room_type_test (room_type_filter : option string)
  : outcome (Row -> bool) :=
  match truthy_str room_type_filter with
  | Some pat => obind (str_contains pat) (fun f =>
                Returned (fun r => f (RoomType r)))
  | None => Returned (fun _ => true)
  end.

Definition exclude_test (exclude_non_wdw : bool) : outcome (Row -> bool) :=
  if exclude_non_wdw then
    obind (str_contains (join "|" exclude_keywords)) (fun f =>
    Returned (fun r => negb (f (ResortName r))))
  else Returned (fun _ => true).

Definition resort_name_test (resort_name_filter : option (list string))
  : outcome (Row -> bool) :=
  match truthy_list resort_name_filter with
  | Some names => obind (str_contains (join "|" names)) (fun f =>
                  Returned (fun r => f (ResortName r)))
  | None => Returned (fun _ => true)
  end.

Definition request_url (start_date end_date : string) : string :=
  "https://dvc-points.herokuapp.com/get-resort-info?arrivalDate="
  +:+ start_date +:+ "&departureDate=" +:+ end_date.

Definition fetch_resort_info (w : World) (start_date end_date : string)
    (room_type_filter : option string) (exclude_non_wdw : bool)
    (resort_name_filter : option (list string)) : M fetched :=
  match reformat_date start_date, reformat_date end_date with
  | Some start_date, Some end_date =>
      let url := request_url start_date end_date in
      emit (HttpGet url) ;;;
      match requests_get w url with
      | None => raise ConnectionError
      | Some response =>
          if decide (status_code response ≠ 200%Z) then
            ret (Message ("Error fetching data: "
                          +:+ pretty (status_code response)))
          else
            match json response with
            | NotJson => raise JSONDecodeError
            | JsonOther => raise AttributeError
            | JsonObject data =>
                df <- lift (process_data data room_type_filter
                              exclude_non_wdw resort_name_filter) ;;
                ret (Frame df)
            end
      end
  | _, _ => ret (Message "Invalid date format. Please use YYYY-mm-dd.")
  end.

Definition send_pushover_alert (w : World) (message : string)
    (pushover_config : PushoverConfig) : M unit :=
  emit (Push message pushover_config) ;;;
  if send_message w message pushover_config then ret tt
  else raise PushoverError.

(** [alert_config.get("name", "Unnamed")]: the default stands in for a
    missing key only; a name that is present and null stays [None]. *)
Definition alert_name_of (alert_config : AlertConfig) : option string :=
  default (Some "Unnamed") (cfg_name alert_config).

(** How an f-string shows the name. *)
Definition name_text (alert_name : option string) : string :=
  default "None" alert_name.

Definition is_empty (df : list Row) : bool :=
  match df with [] => true | _ :: _ => false end.

Definition found_message (alert_name : option string) (result_str : string)
  : string :=
  "Availability found for alert '" +:+ name_text alert_name +:+ "':"
  +:+ String newline result_str.

Definition none_message (alert_name : option string) : string :=
  "No availability found for alert '" +:+ name_text alert_name +:+ "'.".

Definition check_availability (w : World) (alert_config : AlertConfig)
  : M unit :=
  start_date <- subscript "start_date" (cfg_start_date alert_config) ;;
  end_date <- subscript "end_date" (cfg_end_date alert_config) ;;
  result <- fetch_resort_info w start_date end_date
              (cfg_room_type alert_config)
              (default false (cfg_exclude_non_wdw alert_config))
              (cfg_resort_names alert_config) ;;
  match result with
  | Message text => print text
  | Frame df =>
      let result_str := to_string df in
      let alert_name := alert_name_of alert_config in
      last_result_str <- fetch_last_result alert_name ;;
      if decide (Some result_str ≠ last_result_str) then
        update_last_result alert_name result_str ;;;
        if negb (is_empty df) then
          let message := found_message alert_name result_str in
          print message ;;;
          match cfg_pushover alert_config with
          | Some pushover_config =>
              send_pushover_alert w message pushover_config
          | None => ret tt
          end
        else print (none_message alert_name)
      else ret tt
  end.

(** What a fetch answers and what it adds to the trace; neither depends
    on the state it starts from (lemma [fetch_run]). *)
Definition fetch_outcome (w : World) (start_date end_date : string)
    (room_type_filter : option string) (exclude_non_wdw : bool)
    (resort_name_filter : option (list string)) : outcome fetched :=
  snd (fetch_resort_info w start_date end_date room_type_filter
         exclude_non_wdw resort_name_filter (mkState [] [])).

Definition fetch_events (w : World) (start_date end_date : string)
    (room_type_filter : option string) (exclude_non_wdw : bool)
    (resort_name_filter : option (list string)) : list event :=
  trace (fst (fetch_resort_info w start_date end_date room_type_filter
                exclude_non_wdw resort_name_filter (mkState [] []))).

(** The [for] loop of [main] over the configured alerts. *)
Fixpoint run_alerts (w : World) (alerts : list AlertConfig) : M unit :=
  match alerts with
  | [] => ret tt
  | alert_config :: rest =>
      check_availability w alert_config ;;; run_alerts w rest
  end.

(** The [while True] loop of [main], unrolled over the worlds of its
    first cycles; the list running out stands for "still looping". *)
Fixpoint main (cycles : list World) (alerts : list AlertConfig) : M unit :=
  match cycles with
  | [] => ret tt
  | w :: later =>
      print ("Checking availability at " +:+ now w +:+ "...") ;;;
      run_alerts w alerts ;;;
      emit (Sleep 300) ;;;
      main later alerts
  end.

End Libraries.

(** *** Reading a trace *)

(** The notification dispatches of a trace, and its store writes. *)
Definition pushes (t : list event) : list (string * PushoverConfig) :=
  omap (fun ev => match ev with
                  | Push message target => Some (message, target)
                  | _ => None
                  end) t.

Definition commits (t : list event) : list (option string * string) :=
  omap (fun ev => match ev with
                  | Commit alert_name result_str => Some (alert_name, result_str)
                  | _ => None
                  end) t.

Definition requests (t : list event) : list string :=
  omap (fun ev => match ev with
                  | HttpGet url => Some url
                  | _ => None
                  end) t.

Definition sleeps (t : list event) : list Z :=
  omap (fun ev => match ev with
                  | Sleep seconds => Some seconds
                  | _ => None
                  end) t.

Definition prints (t : list event) : list string :=
  omap (fun ev => match ev with
                  | Print line => Some line
                  | _ => None
                  end) t.

(** The table after the writes [cs], applied in order. *)
Definition apply_commits (cs : list (option string * string))
    (d : list Stored) : list Stored :=
  fold_left (fun rows c => upsert rows (fst c) (snd c)) cs d.

(** Every dispatch in [t] comes right after the write of a rendering
    and the print of the message made from it, and sends that message. *)
Definition dispatch_in_order (t : list event) : Prop :=
  forall i message target,
    t !! i = Some (Push message target) ->
    exists j alert_name result_str,
      i = S (S j)
      /\ t !! j = Some (Commit alert_name result_str)
      /\ t !! S j = Some (Print message)
      /\ message = found_message alert_name result_str.

(** What the room-type filter keeps of a row, given the search [f] the
    library compiled the filter value to: a row without a room type is
    dropped. *)
Definition room_type_kept (f : string -> bool) (r : Row) : bool :=
  match RoomType r with
  | Some cell => f cell
  | None => false
  end.


(** [config.get("alerts", [])] as the [for] statement of line 145 needs
    it: [.get] raises on what is no mapping, and a null entry cannot be
    iterated. *)
Definition configured_alerts (config : Config) : outcome (list AlertConfig) :=
  match config with
  | NotMapping => Raised AttributeError
  | Mapping None => Returned []
  | Mapping (Some None) => Raised TypeError
  | Mapping (Some (Some alerts)) => Returned alerts
  end.

(** Lines 136 to 147 of [main]: the connection comes from
    [initialize_db], and the loop starts with nothing done yet. The
    [alerts] entry is read in every cycle after the line of the cycle is
    printed; as the configuration does not change, a reading that raises
    does so in the first cycle. *)
Definition script (re_search : string -> option (string -> bool))
    (reformat_date : string -> option string)
    (to_string : list Row -> string)
    (file : option (list Stored))
    (config : Config)
    (cycles : list World) : state * outcome unit :=
  let started := mkState (initialize_db file) [] in
  match configured_alerts config with
  | Returned alerts => main re_search reformat_date to_string cycles alerts started
  | Raised ex =>
      match cycles with
      | [] => (started, Returned tt)
      | w :: _ =>
          (mkState (initialize_db file)
             [Print ("Checking availability at " +:+ now w +:+ "...")],
           Raised ex)
      end
  end.

End Script.

(* ===================================================================== *)
(** ** Samples: library stand-ins and inputs for the examples *)
(* ===================================================================== *)

Module Samples.
Import Text Re Script.

Definition digit (c : ascii) : option nat :=
  let n := nat_of_ascii c in
  if (48 <=? n)%nat && (n <=? 57)%nat then Some (n - 48)%nat else None.

Definition leap (y : nat) : bool :=
  ((y mod 4 =? 0) && negb (y mod 100 =? 0) || (y mod 400 =? 0))%nat.

Definition days_in (y m : nat) : nat :=
  match m with
  | 2 => if leap y then 29 else 28
  | 4 | 6 | 9 | 11 => 30
  | _ => 31
  end.

(** A date reformatter for zero-padded dates [YYYY-MM-DD] of the years
    1000 to 9999: where it answers, [strptime] and [strftime] answer the
    same. ([strptime] also takes one-digit months and days.) *)
Definition iso_to_compact (s : string) : option string :=
  match s with
  | String y1 (String y2 (String y3 (String y4 (String "-"
      (String m1 (String m2 (String "-"
        (String d1 (String d2 EmptyString))))))))) =>
      a ← digit y1; b ← digit y2; c ← digit y3; d ← digit y4;
      e ← digit m1; f ← digit m2; g ← digit d1; h ← digit d2;
      let y := (1000 * a + 100 * b + 10 * c + d)%nat in
      let m := (10 * e + f)%nat in
      let dd := (10 * g + h)%nat in
      if ((1 <=? a) && (1 <=? m) && (m <=? 12) && (1 <=? dd)
          && (dd <=? days_in y m))%nat
      then Some (String y1 (String y2 (String y3 (String y4
                  (String m1 (String m2 (String d1 (String d2 ""))))))))
      else None
  | _ => None
  end.

Definition cell (o : option string) : string := default "None" o.

Definition render_row (r : Row) : string :=
  cell (ResortName r) +:+ " " +:+ cell (RoomType r) +:+ " "
  +:+ cell (ViewType r) +:+ " " +:+ from_option pretty "None" (Points r)
  +:+ " " +:+ cell (Availability r).

(** A stand-in for [to_string(index=False)]: the message pandas prints
    for a frame without rows, and otherwise a header and a line per row
    (pandas also pads the columns). *)
Definition render (df : list Row) : string :=
  match df with
  | [] => "Empty DataFrame" +:+ String newline
          "Columns: [ResortName, RoomType, ViewType, Points, Availability]"
          +:+ String newline "Index: []"
  | _ :: _ =>
      join (String newline "")
        ("ResortName RoomType ViewType Points Availability"
         :: map render_row df)
  end.

Definition entry (resort room view : string) (points : Z) (status : string)
  : Entry :=
  mkEntry (Some resort) (Some room) (Some view) (Some points)
          (Some (Some status)).

Definition poly_studio : Entry :=
  entry "Polynesian Villas" "Deluxe Studio" "Standard" 150 "Full".
Definition aulani_studio : Entry :=
  entry "Aulani" "Deluxe Studio" "Ocean" 180 "Full".
Definition boardwalk_1br : Entry :=
  entry "Boardwalk Villas" "1 Bedroom Villa" "Garden" 260 "Full".
Definition riviera_partial : Entry :=
  entry "Riviera Resort" "Deluxe Studio" "Preferred" 170 "Partial".

Definition inventory : list Entry :=
  [poly_studio; aulani_studio; boardwalk_1br; riviera_partial].

Definition ok_response (data : list Entry) : Response :=
  mkResponse 200 (JsonObject data).

(** A world whose service answers every request with [resp] and whose
    Pushover service accepts ([push_ok]) or fails. *)
Definition world (resp : option Response) (push_ok : bool) : World :=
  mkWorld "2025-06-01 09:00:00" (fun _ => resp) (fun _ _ => push_ok).

Definition credentials : PushoverConfig := mkPushover "u-key" "a-token".

(** An alert with the name [name], or without a [name] entry. *)
Definition alert (name : option string) (room : option string)
    (push : option PushoverConfig) : AlertConfig :=
  mkAlert (Some <$> name) (Some "2025-07-01") (Some "2025-07-05") room None
          None push.

(** An alert whose [name] entry is there and has no value. *)
Definition null_named (room : option string) (push : option PushoverConfig)
  : AlertConfig :=
  mkAlert (Some None) (Some "2025-07-01") (Some "2025-07-05") room None None
          push.

Definition fresh : state := mkState [] [].

(** The service answers with [data]; Pushover works, or fails. *)
Definition serving (data : list Entry) : World :=
  world (Some (ok_response data)) true.
Definition serving_push_down (data : list Entry) : World :=
  world (Some (ok_response data)) false.

Definition studio_rows : list Row :=
  [row_of_entry poly_studio; row_of_entry aulani_studio].

End Samples.

(* ===================================================================== *)
(** ** Facts about the matcher and the parser *)
(* ===================================================================== *)

Module ReFacts.
Import Text Re.

Lemma match_here_Void s : match_here Void s = false.
Proof. induction s as [|x s IH]; simpl; auto. Qed.

Lemma match_here_Alt r1 r2 s :
  match_here (Alt r1 r2) s = match_here r1 s || match_here r2 s.
Proof.
  revert r1 r2. induction s as [|x s IH]; intros r1 r2; simpl.
  - by rewrite !orb_false_r.
  - rewrite IH. destruct (nullable r1), (nullable r2); simpl;
      rewrite ?orb_true_r; auto.
Qed.

Lemma match_here_Cat_Void r s : match_here (Cat Void r) s = false.
Proof. induction s as [|x s IH]; simpl; auto. Qed.

Lemma match_here_Cat_Eps r s : match_here (Cat Eps r) s = match_here r s.
Proof.
  destruct s as [|x s]; simpl.
  - by rewrite orb_false_r.
  - by rewrite match_here_Alt, match_here_Cat_Void.
Qed.

Lemma match_here_literal p s : match_here (literal p) s = prefix_ci p s.
Proof.
  revert s. induction p as [|c p IH]; intros s.
  - by destruct s.
  - destruct s as [|x s]; simpl; [done|].
    destruct (eq_ci c x); simpl.
    + by rewrite match_here_Cat_Eps.
    + by rewrite match_here_Cat_Void.
Qed.

(** Searching for a literal pattern is case-insensitive containment. *)
Lemma search_literal p s : search (literal p) s = contains_ci p s.
Proof.
  induction s as [|x s IH].
  - change (match_here (literal p) "" || false = prefix_ci p "" || false).
    by rewrite match_here_literal.
  - change (match_here (literal p) (String x s) || search (literal p) s
            = prefix_ci p (String x s) || contains_ci p s).
    by rewrite match_here_literal, IH.
Qed.




Lemma special_false c :
  special c = false ->
  c ≠ "\"%char ∧ c ≠ "."%char ∧ c ≠ "|"%char ∧ c ≠ "("%char
  ∧ c ≠ ")"%char ∧ as_quantifier c = None.
Proof.
  unfold special, as_quantifier. intros H.
  destruct (decide (c ∈ _)) as [|Hn]; [done|].
  repeat split; try (intros ->; apply Hn; set_solver).
  repeat case_decide; subst; try done; exfalso; apply Hn; set_solver.
Qed.

Lemma parse_plain_app p q top stack :
  plain p = true ->
  parse (p +:+ q) top stack = parse q (push_literal p top) stack.
Proof.
  revert top. induction p as [|c p IH]; intros top Hp; [done|].
  simpl in Hp. apply andb_true_iff in Hp as [Hc Hp].
  apply negb_true_iff in Hc. pose proof Hc as Hs.
  apply special_false in Hc as (H1 & H2 & H3 & H4 & H5 & H6).
  change (String c p +:+ q) with (String c (p +:+ q)).
  cbn [parse push_literal].
  rewrite !decide_False by done. rewrite H6, Hs. by apply IH.
Qed.

Lemma append_empty_r (p : string) : p +:+ "" = p.
Proof.
  induction p as [|c p IH]; [done|].
  change (String c (p +:+ "") = String c p). by rewrite IH.
Qed.

Lemma parse_plain p top stack :
  plain p = true -> parse p top stack = parse "" (push_literal p top) stack.
Proof.
  intros Hp. rewrite <- (append_empty_r p) at 1. by apply parse_plain_app.
Qed.

Lemma done_branches_push_literal p f :
  done_branches (push_literal p f) = done_branches f.
Proof.
  revert f. induction p as [|c p IH]; intros f; [done|].
  cbn [push_literal]. by rewrite IH.
Qed.

Lemma branch_regex_push_literal p f tail :
  fold_left (fun acc it => Cat (fst it) acc) (items (push_literal p f)) tail
  = fold_left (fun acc it => Cat (fst it) acc) (items f)
              (literal_onto p tail).
Proof.
  revert f tail. induction p as [|c p IH]; intros f tail; [done|].
  cbn [push_literal]. by rewrite IH.
Qed.

Lemma literal_onto_Eps p : literal_onto p Eps = literal p.
Proof. induction p as [|c p IH]; simpl; [done | by rewrite IH]. Qed.

Lemma frame_regex_push_literal p f :
  items f = [] ->
  frame_regex (push_literal p f)
  = fold_left (fun acc b => Alt b acc) (done_branches f) (literal p).
Proof.
  intros Hf. unfold frame_regex, branch_regex.
  rewrite done_branches_push_literal, branch_regex_push_literal, Hf.
  simpl. by rewrite literal_onto_Eps.
Qed.

(** A pattern without special characters compiles to itself, read as a
    sequence of letters. *)
Lemma compile_plain p : plain p = true -> compile p = Compiled (literal p).
Proof.
  intros Hp. unfold compile. rewrite parse_plain by done.
  simpl. by rewrite frame_regex_push_literal.
Qed.

Lemma parse_keywords others : forall first top stack,
  items top = [] ->
  plain first = true -> forallb plain others = true ->
  exists top',
    parse (join "|" (first :: others)) top stack = parse "" top' stack
    /\ frame_regex top'
       = fold_left (fun acc b => Alt b acc) (done_branches top)
                   (alternatives first others).
Proof.
  induction others as [|k others IH]; intros first top stack Ht Hf Ho.
  - exists (push_literal first top). split.
    + by apply parse_plain.
    + by apply frame_regex_push_literal.
  - simpl in Ho. apply andb_true_iff in Ho as [Hk Ho].
    destruct (IH k (next_branch (push_literal first top)) stack)
      as (top' & Hparse & Hre); [done..|].
    exists top'. split.
    + change (join "|" (first :: k :: others))
        with (first +:+ String "|" (join "|" (k :: others))).
      rewrite parse_plain_app by done.
      rewrite <- Hparse. done.
    + rewrite Hre. simpl. unfold branch_regex.
      rewrite branch_regex_push_literal, done_branches_push_literal, Ht.
      simpl. by rewrite literal_onto_Eps.
Qed.

(** [k1|...|kn] of plain keywords compiles to their alternation. *)
Lemma compile_keywords first others :
  plain first = true -> forallb plain others = true ->
  compile (join "|" (first :: others)) = Compiled (alternatives first others).
Proof.
  intros Hf Ho.
  destruct (parse_keywords others first empty_frame [])
    as (top' & Hparse & Hre); [done..|].
  unfold compile. rewrite Hparse. simpl. by rewrite Hre.
Qed.


(** The fixed pattern of the exclusion filter. *)
Lemma compile_exclude_keywords :
  compile (join "|" Script.exclude_keywords)
  = Compiled (alternatives "Aulani"
                ["Beach"; "Disneyland"; "Hilton"; "Californian"]).
Proof. by apply compile_keywords. Qed.

Lemma append_cons c (s t : string) : String c s +:+ t = String c (s +:+ t).
Proof. done. Qed.

(** What [prefix_ci] and [contains_ci] decide, on lowered text. *)
Lemma prefix_ci_spec needle hay :
  prefix_ci needle hay = true
  <-> exists rest, lower_str hay = lower_str needle +:+ rest.
Proof.
  revert hay. induction needle as [|a needle IH]; intros hay.
  - split; [intros _; by exists (lower_str hay) | done].
  - destruct hay as [|b hay]; cbn [prefix_ci lower_str].
    + split; [done | intros [rest H]; discriminate].
    + rewrite andb_true_iff, IH. unfold eq_ci.
      setoid_rewrite append_cons.
      destruct (decide (lower a = lower b)) as [Hab|Hab].
      * rewrite Hab. split.
        -- intros [_ [rest H]]. exists rest. by rewrite H.
        -- intros [rest H]. split; [done|]. exists rest. congruence.
      * split; [intros [? _]; done | intros [rest H]; congruence].
Qed.

Lemma contains_ci_spec needle hay :
  contains_ci needle hay = true
  <-> exists before after,
        lower_str hay = before +:+ lower_str needle +:+ after.
Proof.
  induction hay as [|b hay IH]; cbn [contains_ci].
  - rewrite orb_false_r, prefix_ci_spec. split.
    + intros [rest H]. by exists "", rest.
    + intros (before & after & H). destruct before; [by exists after|done].
  - rewrite orb_true_iff, prefix_ci_spec, IH. cbn [lower_str]. split.
    + intros [[rest H] | (before & after & H)].
      * by exists "", rest.
      * exists (String (lower b) before), after.
        rewrite append_cons. by rewrite H.
    + intros (before & after & H). destruct before as [|c before].
      * left. by exists after.
      * right. exists before, after. rewrite append_cons in H. congruence.
Qed.

(** *** The matcher against the declarative reading *)

Lemma append_nil_inv (s1 s2 : string) : s1 +:+ s2 = "" -> s1 = "" /\ s2 = "".
Proof. destruct s1; [done | discriminate]. Qed.

Lemma nullable_matches r : nullable r = true <-> matches r "".
Proof.
  split.
  - induction r; cbn [nullable]; intros H; try discriminate.
    + constructor.
    + apply andb_true_iff in H as [H1 H2].
      change "" with ("" +:+ ""). constructor; auto.
    + apply orb_true_iff in H as [H|H];
        [apply matches_Alt_l | apply matches_Alt_r]; auto.
    + constructor.
  - intros H. remember "" as s eqn:Hs.
    induction H; cbn [nullable]; try discriminate; try done.
    + apply append_nil_inv in Hs as [-> ->]. rewrite IHmatches1, IHmatches2; done.
    + rewrite IHmatches; done.
    + rewrite IHmatches, orb_true_r; done.
Qed.

(** A match of [Star r] on a non-empty text starts with a non-empty
    match of [r]. *)
Lemma matches_Star_cons r x s :
  matches (Star r) (String x s) ->
  exists s1 s2, s = s1 +:+ s2 /\ matches r (String x s1) /\ matches (Star r) s2.
Proof.
  intros H. remember (Star r) as r' eqn:Hr. remember (String x s) as t eqn:Ht.
  revert x s Ht.
  induction H as [| | | | | | |r0 s1 s2 H1 _ H2 IH2]; try discriminate.
  injection Hr as ->. intros x s Ht.
  destruct s1 as [|y s1].
  - apply IH2; done.
  - rewrite append_cons in Ht. injection Ht as -> <-. by exists s1, s2.
Qed.

Lemma matches_Cat_inv r1 r2 s :
  matches (Cat r1 r2) s ->
  exists s1 s2, s = s1 +:+ s2 /\ matches r1 s1 /\ matches r2 s2.
Proof. inversion 1; subst. by eexists _, _. Qed.

Lemma deriv_matches r x s : matches (deriv x r) s <-> matches r (String x s).
Proof.
  revert s. induction r as [| |c| |r1 IH1 r2 IH2|r1 IH1 r2 IH2|r1 IH1];
    intros s; cbn [deriv].
  - split; inversion 1.
  - split; inversion 1.
  - destruct (eq_ci c x) eqn:Hc; split; inversion 1; subst.
    + by constructor.
    + constructor.
    + congruence.
  - case_decide as Hx; split; inversion 1; subst.
    + done.
    + by constructor.
    + constructor.
  - assert (Hcat : matches (Cat (deriv x r1) r2) s
                   <-> exists s1 s2, s = s1 +:+ s2
                         /\ matches r1 (String x s1) /\ matches r2 s2).
    { split.
      - intros H. apply matches_Cat_inv in H as (s1 & s2 & -> & H1 & H2).
        exists s1, s2. split; [done|]. split; [by apply IH1 | done].
      - intros (s1 & s2 & -> & H1 & H2). constructor; [by apply IH1 | done]. }
    assert (Hgoal : matches (Cat r1 r2) (String x s)
                    <-> (exists s1 s2, s = s1 +:+ s2
                           /\ matches r1 (String x s1) /\ matches r2 s2)
                        \/ (matches r1 "" /\ matches r2 (String x s))).
    { split.
      - intros H. apply matches_Cat_inv in H as (s1 & s2 & Heq & H1 & H2).
        destruct s1 as [|y s1].
        + right. change ("" +:+ s2) with s2 in Heq. by subst.
        + left. rewrite append_cons in Heq. injection Heq as <- ->.
          by exists s1, s2.
      - intros [(s1 & s2 & -> & H1 & H2) | [H1 H2]].
        + rewrite <- append_cons. by constructor.
        + change (String x s) with ("" +:+ String x s). by constructor. }
    rewrite Hgoal. destruct (nullable r1) eqn:Hn.
    + split.
      * inversion 1; subst; [left; by apply Hcat|].
        right. split; [by apply nullable_matches | by apply IH2].
      * intros [H | [_ H]].
        -- apply matches_Alt_l. by apply Hcat.
        -- apply matches_Alt_r. by apply IH2.
    + rewrite Hcat. split; [by left|].
      intros [H | [H _]]; [done|].
      apply nullable_matches in H. congruence.
  - split.
    + inversion 1; subst;
        [apply matches_Alt_l; by apply IH1 | apply matches_Alt_r; by apply IH2].
    + inversion 1; subst;
        [apply matches_Alt_l; by apply IH1 | apply matches_Alt_r; by apply IH2].
  - split.
    + inversion 1; subst. rewrite <- append_cons.
      constructor; [by apply IH1 | done].
    + intros H. apply matches_Star_cons in H as (s1 & s2 & -> & H1 & H2).
      constructor; [by apply IH1 | done].
Qed.

(** [match_here] finds the matches that start where the text starts,
    [search] those that start anywhere. *)
Lemma match_here_matches r s :
  match_here r s = true
  <-> exists s1 s2, s = s1 +:+ s2 /\ matches r s1.
Proof.
  revert r. induction s as [|x s IH]; intros r; cbn [match_here].
  - rewrite orb_false_r, nullable_matches. split.
    + intros H. by exists "", "".
    + intros (s1 & s2 & Hs & H). symmetry in Hs.
      apply append_nil_inv in Hs as [-> _]. done.
  - rewrite orb_true_iff, nullable_matches, IH. split.
    + intros [H | (s1 & s2 & -> & H)].
      * by exists "", (String x s).
      * exists (String x s1), s2. split; [done|]. by apply deriv_matches.
    + intros (s1 & s2 & Hs & H). destruct s1 as [|y s1]; [by left|].
      right. rewrite append_cons in Hs. injection Hs as <- ->.
      exists s1, s2. split; [done|]. by apply deriv_matches.
Qed.

Lemma search_matches r s :
  search r s = true
  <-> exists s0 s1 s2, s = s0 +:+ s1 +:+ s2 /\ matches r s1.
Proof.
  induction s as [|x s IH]; cbn [search].
  - rewrite orb_false_r, match_here_matches. split.
    + intros (s1 & s2 & Hs & H). by exists "", s1, s2.
    + intros (s0 & s1 & s2 & Hs & H). symmetry in Hs.
      apply append_nil_inv in Hs as [_ Hs].
      apply append_nil_inv in Hs as [-> ->]. by exists "", "".
  - rewrite orb_true_iff, match_here_matches, IH. split.
    + intros [(s1 & s2 & Hs & H) | (s0 & s1 & s2 & -> & H)].
      * by exists "", s1, s2.
      * by exists (String x s0), s1, s2.
    + intros (s0 & s1 & s2 & Hs & H). destruct s0 as [|y s0].
      * left. by exists s1, s2.
      * right. rewrite append_cons in Hs. injection Hs as <- ->.
        by exists s0, s1, s2.
Qed.

End ReFacts.

(* ===================================================================== *)
(** ** Facts about the table *)
(* ===================================================================== *)

Module StoreFacts.
Import Script.

Lemma sql_eq_true a b : sql_eq a b = true <-> exists k, a = Some k /\ b = Some k.
Proof.
  unfold sql_eq. destruct a as [x|], b as [y|]; try case_decide; split;
    try done; try (intros (k & ? & ?); congruence).
  intros _. subst. by exists y.
Qed.

Lemma sql_eq_null_r a : sql_eq a None = false.
Proof. by destruct a. Qed.

(** A NULL parameter selects nothing, whatever the table holds. *)
Lemma select_null rows : select_last_result rows None = None.
Proof.
  induction rows as [|r rows IH]; [done|].
  cbn. by rewrite sql_eq_null_r.
Qed.

(** Under a name that is text, what was written is selected. *)
Lemma select_upsert_eq rows k v :
  select_last_result (upsert rows (Some k) v) (Some k) = Some v.
Proof.
  induction rows as [|r rows IH]; cbn.
  - by rewrite decide_True.
  - destruct (sql_eq (stored_name r) (Some k)) eqn:Hr; cbn; by rewrite Hr.
Qed.

(** A write under one name, or under NULL, leaves the selection under
    another name as it was. *)
Lemma select_upsert_ne rows key k v :
  key <> Some k ->
  select_last_result (upsert rows key v) (Some k)
  = select_last_result rows (Some k).
Proof.
  intros Hne. induction rows as [|r rows IH]; cbn.
  - destruct key as [k'|]; [|done]. cbn.
    rewrite decide_False; [done|congruence].
  - destruct (sql_eq (stored_name r) key) eqn:Hr; cbn.
    + apply sql_eq_true in Hr as (k' & Hr & ->). rewrite Hr. cbn.
      case_decide; [congruence | done].
    + by rewrite IH.
Qed.

(** The written row is in the table. *)
Lemma upsert_In rows key v : In (mkStored key v) (upsert rows key v).
Proof.
  induction rows as [|r rows IH]; cbn; [by left|].
  destruct (sql_eq (stored_name r) key) eqn:Hr.
  - left. apply sql_eq_true in Hr as (k & -> & ->). done.
  - by right.
Qed.

(** A write adds a row exactly when no row conflicts with it; under
    NULL no row ever does. *)
Lemma length_upsert rows key v :
  length (upsert rows key v)
  = match select_last_result rows key with
    | Some _ => length rows
    | None => S (length rows)
    end.
Proof.
  induction rows as [|r rows IH]; cbn; [done|].
  destruct (sql_eq (stored_name r) key); cbn; [done|].
  rewrite IH. by destruct (select_last_result rows key).
Qed.

Lemma select_upsert_is_Some rows key v k :
  is_Some (select_last_result rows (Some k)) ->
  is_Some (select_last_result (upsert rows key v) (Some k)).
Proof.
  intros Hk. destruct (decide (key = Some k)) as [->|Hne].
  - rewrite select_upsert_eq. by eexists.
  - by rewrite select_upsert_ne.
Qed.

(** A write under NULL adds a row at the end. *)
Lemma upsert_null rows v : upsert rows None v = rows ++ [mkStored None v].
Proof.
  induction rows as [|r rows IH]; cbn; [done|].
  by rewrite sql_eq_null_r, IH.
Qed.

(** A second write under a name that is text replaces the first. *)
Lemma upsert_upsert rows k v1 v2 :
  upsert (upsert rows (Some k) v1) (Some k) v2 = upsert rows (Some k) v2.
Proof.
  induction rows as [|r rows IH]; cbn.
  - by rewrite decide_True.
  - destruct (sql_eq (stored_name r) (Some k)) eqn:Hr; cbn; rewrite Hr.
    + done.
    + by rewrite IH.
Qed.

(** Nothing is selected under a name exactly when no row carries it. *)
Lemma select_None rows k :
  select_last_result rows (Some k) = None
  <-> ~ In (Some k) (map stored_name rows).
Proof.
  induction rows as [|r rows IH]; cbn; [tauto|].
  destruct (sql_eq (stored_name r) (Some k)) eqn:Hr.
  - apply sql_eq_true in Hr as (k' & Hr & [= ->]). split; [done|].
    intros H. destruct H. by left.
  - rewrite IH. split; [|tauto]. intros Hn [Hk|Hk]; [|done].
    rewrite Hk in Hr. cbn in Hr. by rewrite decide_True in Hr.
Qed.

(** The text names of the table after a write. *)
Lemma text_names_upsert rows key v :
  omap stored_name (upsert rows key v)
  = match select_last_result rows key with
    | Some _ => omap stored_name rows
    | None => omap stored_name rows ++ option_list key
    end.
Proof.
  induction rows as [|r rows IH]; cbn; [by destruct key|].
  destruct (sql_eq (stored_name r) key); cbn; [done|].
  rewrite IH.
  by destruct (stored_name r), (select_last_result rows key).
Qed.

Lemma NoDup_text_names_upsert rows key v :
  NoDup (omap stored_name rows) ->
  NoDup (omap stored_name (upsert rows key v)).
Proof.
  intros Hnodup. rewrite text_names_upsert.
  destruct (select_last_result rows key) eqn:Hsel; [done|].
  destruct key as [k|]; cbn; [|by rewrite app_nil_r].
  apply NoDup_app. split; [done|]. split; [|apply NoDup_singleton].
  intros x Hx ->%list_elem_of_singleton.
  apply select_None in Hsel. apply Hsel.
  apply list_elem_of_omap in Hx as (r & Hr & Hname).
  rewrite <- Hname. apply in_map. by apply list_elem_of_In.
Qed.

End StoreFacts.

(* ===================================================================== *)
(** ** Facts about the script *)
(* ===================================================================== *)

Module ScriptFacts.
Import Text Re Script.

Lemma filter_swap {A} (p q : A -> bool) (l : list A) :
  List.filter p (List.filter q l) = List.filter q (List.filter p l).
Proof.
  induction l as [|x l IH]; cbn; [done|].
  destruct (p x) eqn:Hp, (q x) eqn:Hq; cbn; rewrite ?Hp, ?Hq, ?IH; done.
Qed.

Section WithLibraries.

Variable re_search : string -> option (string -> bool).
Variable reformat_date : string -> option string.
Variable to_string : list Row -> string.

#[local] Abbreviation fetch_resort_info := (fetch_resort_info re_search reformat_date).
#[local] Abbreviation fetch_outcome := (fetch_outcome re_search reformat_date).
#[local] Abbreviation fetch_events := (fetch_events re_search reformat_date).
#[local] Abbreviation check_availability :=
  (check_availability re_search reformat_date to_string).
#[local] Abbreviation run_alerts := (run_alerts re_search reformat_date to_string).
#[local] Abbreviation main := (main re_search reformat_date to_string).
#[local] Abbreviation process_data := (process_data re_search).

(** *** The filters *)

Lemma filter_all {A} (l : list A) : List.filter (fun _ => true) l = l.
Proof. induction l as [|x l IH]; simpl; [done | by rewrite IH]. Qed.

Lemma filter_room_type_test room df :
  filter_room_type re_search room df
  = obind (room_type_test re_search room)
          (fun p => Returned (List.filter p df)).
Proof.
  unfold filter_room_type, room_type_test.
  destruct (truthy_str room) as [pat|]; [|simpl; by rewrite filter_all].
  by destruct (str_contains re_search pat).
Qed.

Lemma filter_exclude_test excl df :
  filter_exclude_non_wdw re_search excl df
  = obind (exclude_test re_search excl)
          (fun p => Returned (List.filter p df)).
Proof.
  unfold filter_exclude_non_wdw, exclude_test.
  destruct excl; [|simpl; by rewrite filter_all].
  by destruct (str_contains re_search _).
Qed.

Lemma filter_resort_name_test names df :
  filter_resort_name re_search names df
  = obind (resort_name_test re_search names)
          (fun p => Returned (List.filter p df)).
Proof.
  unfold filter_resort_name, resort_name_test.
  destruct (truthy_list names); [|simpl; by rewrite filter_all].
  by destruct (str_contains re_search _).
Qed.

(** The frame that comes out of the filters, when one does. *)
Lemma process_data_Returned data room excl names df :
  process_data data room excl names = Returned df
  <-> data <> []
      /\ exists p1 p2 p3,
           room_type_test re_search room = Returned p1
           /\ exclude_test re_search excl = Returned p2
           /\ resort_name_test re_search names = Returned p3
           /\ df = List.filter p3 (List.filter p2 (List.filter p1
                     (List.filter is_full (map row_of_entry data)))).
Proof.
  unfold process_data.
  destruct data as [|entry data]; simpl map.
  - split; [done | by intros [? _]].
  - cbv zeta. rewrite filter_room_type_test.
    destruct (room_type_test re_search room) as [p1|e1]; simpl.
    2: { split; [done | by intros (_ & ? & ? & ? & ? & _)]. }
    rewrite filter_exclude_test.
    destruct (exclude_test re_search excl) as [p2|e2]; simpl.
    2: { split; [done | by intros (_ & ? & ? & ? & _ & ? & _)]. }
    rewrite filter_resort_name_test.
    destruct (resort_name_test re_search names) as [p3|e3]; simpl.
    2: { split; [done | by intros (_ & ? & ? & ? & _ & _ & ? & _)]. }
    split.
    + intros [= <-]. split; [done|]. by exists p1, p2, p3.
    + intros (_ & q1 & q2 & q3 & [= <-] & [= <-] & [= <-] & ->). done.
Qed.

(** *** The fetch *)

Lemma fetch_run w s e room excl names st :
  fetch_resort_info w s e room excl names st
  = (mkState (db st) (trace st ++ fetch_events w s e room excl names),
     fetch_outcome w s e room excl names).
Proof.
  unfold Script.fetch_outcome, Script.fetch_events, Script.fetch_resort_info.
  destruct st as [d t].
  destruct (reformat_date s) as [s'|], (reformat_date e) as [e'|];
    try (cbn; by rewrite app_nil_r).
  unfold bind, emit, raise, ret, lift. cbn.
  destruct (requests_get w _) as [resp|]; [|done].
  case_decide; [done|].
  destruct (json resp) as [| |data]; [done..|].
  by destruct (process_data _ _ _ _).
Qed.

(** A frame is returned exactly when both dates are well formed, the
    service answers 200 with a JSON object, and the filters go through. *)
Lemma fetch_outcome_Frame w s e room excl names df :
  fetch_outcome w s e room excl names = Returned (Frame df)
  <-> exists s' e' resp data,
        reformat_date s = Some s' /\ reformat_date e = Some e'
        /\ requests_get w (request_url s' e') = Some resp
        /\ status_code resp = 200%Z /\ json resp = JsonObject data
        /\ process_data data room excl names = Returned df.
Proof.
  unfold Script.fetch_outcome, Script.fetch_resort_info.
  destruct (reformat_date s) as [s'|], (reformat_date e) as [e'|];
    try (cbn; split; [done | by intros (? & ? & ? & ? & ? & ? & _)]).
  unfold bind, emit, raise, ret, lift. cbn.
  destruct (requests_get w _) as [resp|] eqn:Hget.
  2: { split; [done|]. intros (? & ? & ? & ? & [= <-] & [= <-] & ? & _).
       congruence. }
  case_decide as Hst.
  { split; [done|]. intros (? & ? & ? & ? & [= <-] & [= <-] & ? & ? & _).
    congruence. }
  destruct (json resp) as [| |data] eqn:Hjson.
  1-2: split; [done|];
       intros (? & ? & ? & ? & [= <-] & [= <-] & ? & ? & ? & _); congruence.
  destruct (process_data _ _ _ _) as [df'|ex] eqn:Hp; cbn.
  - split.
    + intros [= <-]. exists s', e', resp, data.
      repeat split; try done;
        by destruct (decide (status_code resp = 200%Z)).
    + intros (? & ? & ? & ? & [= <-] & [= <-] & ? & ? & ? & ?). congruence.
  - split; [done|].
    intros (? & ? & ? & ? & [= <-] & [= <-] & ? & ? & ? & ?). congruence.
Qed.

(** A message is returned exactly when a date is malformed or the
    service answers with another status than 200. *)
Lemma fetch_outcome_Message w s e room excl names text :
  fetch_outcome w s e room excl names = Returned (Message text)
  <-> ((reformat_date s = None \/ reformat_date e = None)
       /\ text = "Invalid date format. Please use YYYY-mm-dd.")
      \/ exists s' e' resp,
           reformat_date s = Some s' /\ reformat_date e = Some e'
           /\ requests_get w (request_url s' e') = Some resp
           /\ status_code resp <> 200%Z
           /\ text = "Error fetching data: " +:+ pretty (status_code resp).
Proof.
  unfold Script.fetch_outcome, Script.fetch_resort_info.
  destruct (reformat_date s) as [s'|] eqn:Hs,
           (reformat_date e) as [e'|] eqn:He; cbn.
  2-4: split;
    [ intros [= <-]; left; split; auto
    | intros [[_ ->] | (? & ? & ? & ? & ? & _)]; congruence ].
  unfold bind, emit, raise, ret, lift. cbn.
  destruct (requests_get w _) as [resp|] eqn:Hget.
  2: { split; [done|].
       intros [[[?|?] _] | (? & ? & ? & [= <-] & [= <-] & ? & _)];
         congruence. }
  case_decide as Hst.
  - split.
    + intros [= <-]. right. by exists s', e', resp.
    + intros [[[?|?] _] | (? & ? & r & [= <-] & [= <-] & Hr & ? & ->)];
        [congruence..|].
      rewrite Hget in Hr. by injection Hr as <-.
  - destruct (json resp) as [| |data]; cbn.
    + split; [done|].
      intros [[[?|?] _] | (? & ? & ? & [= <-] & [= <-] & ? & ? & _)];
        congruence.
    + split; [done|].
      intros [[[?|?] _] | (? & ? & ? & [= <-] & [= <-] & ? & ? & _)];
        congruence.
    + destruct (process_data _ _ _ _); cbn; (split; [done|]);
        intros [[[?|?] _] | (? & ? & ? & [= <-] & [= <-] & ? & ? & _)];
        congruence.
Qed.

(** A fetch writes nothing and dispatches nothing. *)
Lemma fetch_events_quiet w s e room excl names :
  pushes (fetch_events w s e room excl names) = []
  /\ commits (fetch_events w s e room excl names) = [].
Proof.
  unfold Script.fetch_events, Script.fetch_resort_info.
  destruct (reformat_date s), (reformat_date e); cbn; try done.
  unfold bind, emit, raise, ret, lift. cbn.
  destruct (requests_get w _) as [resp|]; [|done].
  case_decide; [done|].
  destruct (json resp); [done..|]. by destruct (process_data _ _ _ _).
Qed.

(** Worlds whose service answers alike give the same fetch. *)
Lemma fetch_same_service w w' s e room excl names :
  (forall url, requests_get w' url = requests_get w url) ->
  fetch_outcome w' s e room excl names = fetch_outcome w s e room excl names
  /\ fetch_events w' s e room excl names = fetch_events w s e room excl names.
Proof.
  intros Hsame.
  unfold Script.fetch_outcome, Script.fetch_events, Script.fetch_resort_info.
  destruct (reformat_date s), (reformat_date e); try done.
  unfold bind, emit, raise, ret, lift. cbn. by rewrite Hsame.
Qed.

Lemma run_alerts_app w before rest st :
  run_alerts w (before ++ rest) st
  = match run_alerts w before st with
    | (st1, Returned _) => run_alerts w rest st1
    | (st1, Raised ex) => (st1, Raised ex)
    end.
Proof.
  revert st. induction before as [|a before IH]; intros st; [done|].
  cbn [app Script.run_alerts]. unfold bind.
  destruct (check_availability w a st) as [st1 [[]|ex]]; [apply IH | done].
Qed.

(** *** One alert *)

Lemma check_availability_no_start w a st :
  cfg_start_date a = None ->
  check_availability w a st = (st, Raised (KeyError "start_date")).
Proof. intros H. unfold Script.check_availability, bind. by rewrite H. Qed.

Lemma check_availability_no_end w a s st :
  cfg_start_date a = Some s -> cfg_end_date a = None ->
  check_availability w a st = (st, Raised (KeyError "end_date")).
Proof.
  intros H1 H2. unfold Script.check_availability, bind. by rewrite H1, H2.
Qed.

(** The whole of [check_availability], case by case. *)
Lemma check_availability_run w a s e st :
  cfg_start_date a = Some s -> cfg_end_date a = Some e ->
  let evs := fetch_events w s e (cfg_room_type a)
               (default false (cfg_exclude_non_wdw a)) (cfg_resort_names a) in
  let name := alert_name_of a in
  check_availability w a st
  = match fetch_outcome w s e (cfg_room_type a)
            (default false (cfg_exclude_non_wdw a)) (cfg_resort_names a) with
    | Raised ex => (mkState (db st) (trace st ++ evs), Raised ex)
    | Returned (Message text) =>
        (mkState (db st) (trace st ++ evs ++ [Print text]), Returned tt)
    | Returned (Frame df) =>
        let str := to_string df in
        let msg := found_message name str in
        if decide (Some str <> select_last_result (db st) name) then
          if is_empty df then
            (mkState (upsert (db st) name str)
               (trace st ++ evs ++ [Commit name str; Print (none_message name)]),
             Returned tt)
          else
            match cfg_pushover a with
            | None =>
                (mkState (upsert (db st) name str)
                   (trace st ++ evs ++ [Commit name str; Print msg]),
                 Returned tt)
            | Some target =>
                (mkState (upsert (db st) name str)
                   (trace st ++ evs
                    ++ [Commit name str; Print msg; Push msg target]),
                 if send_message w msg target then Returned tt
                 else Raised PushoverError)
            end
        else (mkState (db st) (trace st ++ evs), Returned tt)
    end.
Proof.
  intros H1 H2 evs name.
  unfold Script.check_availability, bind. rewrite H1, H2. cbn.
  rewrite fetch_run. fold evs.
  destruct (fetch_outcome _ _ _ _ _ _) as [[text|df]|ex]; [| |done].
  - unfold print, emit. cbn. by rewrite <- app_assoc.
  - unfold fetch_last_result. cbn. fold name.
    case_decide; [|done].
    unfold update_last_result. cbn.
    destruct df as [|r df]; cbn.
    + unfold print, emit. cbn. by rewrite <- !app_assoc.
    + destruct (cfg_pushover a) as [target|].
      * unfold send_pushover_alert, bind, emit. cbn.
        rewrite <- !app_assoc. cbn.
        by destruct (send_message w _ target).
      * unfold ret. by rewrite <- !app_assoc.
Qed.

(** *** Reading traces *)

Lemma pushes_app t1 t2 : pushes (t1 ++ t2) = pushes t1 ++ pushes t2.
Proof. apply omap_app. Qed.

Lemma commits_app t1 t2 : commits (t1 ++ t2) = commits t1 ++ commits t2.
Proof. apply omap_app. Qed.

End WithLibraries.

End ScriptFacts.

(* ===================================================================== *)
(** ** Properties of the filters *)
(* ===================================================================== *)

Module FilterProperties.
Import Text Re Script ReFacts ScriptFacts.

Lemma fragment_search_agrees : agrees fragment_search.
Proof.
  intros pat. unfold fragment_search.
  destruct (compile pat); [eexists; split; done | done | done].
Qed.

Lemma agrees_on_ascii_of_agrees lib : agrees lib -> agrees_on_ascii lib.
Proof.
  intros H pat _. specialize (H pat). destruct (compile pat); [|done..].
  destruct H as (f & Hf & Hs). exists f. split; [done|].
  intros s _. apply Hs.
Qed.

Lemma is_full_true r : is_full r = true <-> Availability r = Some "Full".
Proof. unfold is_full. case_decide; split; done. Qed.

Section WithLibraries.

Variable re_search : string -> option (string -> bool).
Variable reformat_date : string -> option string.

#[local] Abbreviation fetch_resort_info :=
  (fetch_resort_info re_search reformat_date).

Lemma fetch_snd w s e room excl names st :
  snd (fetch_resort_info w s e room excl names st)
  = fetch_outcome re_search reformat_date w s e room excl names.
Proof. by rewrite fetch_run. Qed.

(** C3: a row whose availability status is not "Full" is never in the
    frame that [fetch_resort_info] returns, whatever the room-type,
    exclude-non-WDW and resort-name filters are set to. *)
Theorem not_full_rows_are_dropped w s e room excl names st df r :
  snd (fetch_resort_info w s e room excl names st) = Returned (Frame df) ->
  Availability r <> Some "Full" ->
  ~ In r df.
Proof.
  rewrite fetch_snd, fetch_outcome_Frame.
  intros (s' & e' & resp & data & _ & _ & _ & _ & _ & Hp) Hr Hin.
  apply process_data_Returned in Hp as (_ & p1 & p2 & p3 & _ & _ & _ & ->).
  rewrite !filter_In in Hin. destruct Hin as [[[[_ Hfull] _] _] _].
  by apply is_full_true in Hfull.
Qed.

(** C8: with both the exclusion setting and the inclusion list given,
    the frame returned holds exactly the rows common to the frame
    returned with the exclusion setting alone and the frame returned
    with the inclusion list alone (which both exist), in the order and
    number they have there. *)
Theorem exclusion_and_inclusion_intersect w s e room excl names st both :
  snd (fetch_resort_info w s e room excl names st) = Returned (Frame both) ->
  exists only_excl only_incl,
    snd (fetch_resort_info w s e room excl None st)
    = Returned (Frame only_excl)
    /\ snd (fetch_resort_info w s e room false names st)
       = Returned (Frame only_incl)
    /\ (forall r, In r both <-> In r only_excl /\ In r only_incl)
    /\ both = List.filter (fun r => bool_decide (r ∈ only_incl)) only_excl.
Proof.
  rewrite !fetch_snd, fetch_outcome_Frame.
  intros (s' & e' & resp & data & Hs & He & Hget & Hst & Hjson & Hp).
  apply process_data_Returned
    in Hp as (Hdata & p1 & p2 & p3 & Hp1 & Hp2 & Hp3 & ->).
  set (base := List.filter p1 (List.filter is_full (map row_of_entry data))).
  exists (List.filter p2 base), (List.filter p3 base).
  assert (Hin : forall r,
             In r (List.filter p3 (List.filter p2 base))
             <-> In r (List.filter p2 base) /\ In r (List.filter p3 base)).
  { intros r. rewrite !filter_In. tauto. }
  repeat split.
  - apply fetch_outcome_Frame. exists s', e', resp, data.
    repeat split; try done. apply process_data_Returned. split; [done|].
    exists p1, p2, (fun _ => true). repeat split; try done.
    by rewrite filter_all.
  - apply fetch_outcome_Frame. exists s', e', resp, data.
    repeat split; try done. apply process_data_Returned. split; [done|].
    exists p1, (fun _ => true), p3. repeat split; try done.
    by rewrite filter_all.
  - by apply Hin.
  - by apply Hin.
  - intros [H1 H2]. by apply Hin.
  - apply filter_ext_in. intros r Hr.
    destruct (p3 r) eqn:Hp3r.
    + symmetry. apply bool_decide_eq_true, list_elem_of_In, filter_In.
      apply filter_In in Hr as [Hr _]. done.
    + symmetry. apply bool_decide_eq_false.
      rewrite list_elem_of_In, filter_In. intros [_ ?]. congruence.
Qed.

(** C4, as the code has it: the room-type filter is a pattern. For every
    filter value [pat] that is set, either the library compiles [pat],
    and the rows returned are those returned without the room-type
    filter in which the compiled pattern finds a match in the room type
    (a row without a room type is dropped), in the order and number they
    have there; or the library rejects [pat], and the call raises. For a
    library that does on ASCII text what the model says, and [pat] in
    ASCII: a compiled [pat] keeps the rows the model's search keeps; a
    [pat] with no character that is special in a pattern keeps the rows
    whose room type contains [pat] as a case-insensitive substring; a
    [pat] that is not a well-formed pattern makes the call raise. *)
Theorem room_type_filter_is_a_pattern w s e pat excl names st base :
  pat <> "" ->
  snd (fetch_resort_info w s e None excl names st) = Returned (Frame base) ->
  (forall f, re_search pat = Some f ->
     exists df,
       snd (fetch_resort_info w s e (Some pat) excl names st)
       = Returned (Frame df)
       /\ df = List.filter (room_type_kept f) base
       /\ forall r, In r df
                    <-> In r base
                        /\ exists cell, RoomType r = Some cell
                                        /\ f cell = true)
  /\ (re_search pat = None ->
      snd (fetch_resort_info w s e (Some pat) excl names st)
      = Raised ReError)
  /\ (agrees_on_ascii re_search -> ascii_text pat = true ->
      (forall rx, compile pat = Compiled rx ->
         exists df,
           snd (fetch_resort_info w s e (Some pat) excl names st)
           = Returned (Frame df)
           /\ forall r,
                (forall cell, RoomType r = Some cell ->
                              ascii_text cell = true) ->
                (In r df
                 <-> In r base
                     /\ exists cell, RoomType r = Some cell
                                     /\ search rx cell = true))
      /\ (plain pat = true ->
          exists df,
            snd (fetch_resort_info w s e (Some pat) excl names st)
            = Returned (Frame df)
            /\ forall r,
                 (forall cell, RoomType r = Some cell ->
                               ascii_text cell = true) ->
                 (In r df
                  <-> In r base
                      /\ exists cell, RoomType r = Some cell
                                      /\ contains_ci pat cell = true))
      /\ (compile pat = BadPattern ->
          snd (fetch_resort_info w s e (Some pat) excl names st)
          = Raised ReError)).
Proof.
  intros Hpat. rewrite !fetch_snd, fetch_outcome_Frame.
  intros (s' & e' & resp & data & Hs & He & Hget & Hst & Hjson & Hp).
  apply process_data_Returned
    in Hp as (Hdata & p1 & p2 & p3 & [= <-] & Hp2 & Hp3 & ->).
  rewrite filter_all.
  set (full := List.filter is_full (map row_of_entry data)).
  assert (Htruthy : truthy_str (Some pat) = Some pat).
  { unfold truthy_str. by rewrite decide_False. }
  assert (Hcompiled : forall f, re_search pat = Some f ->
     exists df,
       fetch_outcome re_search reformat_date w s e (Some pat) excl names
       = Returned (Frame df)
       /\ df = List.filter (room_type_kept f)
                 (List.filter p3 (List.filter p2 full))
       /\ forall r, In r df
            <-> In r (List.filter p3 (List.filter p2 full))
                /\ exists cell, RoomType r = Some cell /\ f cell = true).
  { intros f Hf.
    exists (List.filter p3 (List.filter p2
              (List.filter (room_type_kept f) full))).
    split; [|split].
    - apply fetch_outcome_Frame. exists s', e', resp, data.
      repeat split; try done. apply process_data_Returned. split; [done|].
      exists (room_type_kept f), p2, p3. repeat split; try done.
      unfold room_type_test. rewrite Htruthy. unfold str_contains.
      by rewrite Hf.
    - rewrite (filter_swap (room_type_kept f) p3).
      by rewrite (filter_swap (room_type_kept f) p2).
    - intros r. rewrite !filter_In. unfold room_type_kept.
      destruct (RoomType r) as [cell|].
      + split.
        * intros [[[H1 Hq] H2] H3]. repeat split; try done. by exists cell.
        * intros [[[H1 H2] H3] (c & [= <-] & Hc)]. done.
      + split; [by intros [[[_ ?] _] _] | by intros [_ (c & ? & _)]]. }
  assert (Hrejected : re_search pat = None ->
     fetch_outcome re_search reformat_date w s e (Some pat) excl names
     = Raised ReError).
  { intros Hnone.
    unfold Script.fetch_outcome, Script.fetch_resort_info.
    rewrite Hs, He. unfold bind, emit, lift, ret. cbn. rewrite Hget.
    rewrite decide_False by (intros ?; done).
    rewrite Hjson. unfold process_data.
    destruct data as [|entry data]; [done|]. cbn.
    unfold filter_room_type. rewrite Htruthy. unfold str_contains.
    by rewrite Hnone. }
  assert (Hmodel : agrees_on_ascii re_search -> ascii_text pat = true ->
     forall rx, compile pat = Compiled rx ->
     exists df,
       fetch_outcome re_search reformat_date w s e (Some pat) excl names
       = Returned (Frame df)
       /\ forall r,
            (forall cell, RoomType r = Some cell -> ascii_text cell = true) ->
            (In r df
             <-> In r (List.filter p3 (List.filter p2 full))
                 /\ exists cell, RoomType r = Some cell
                                 /\ search rx cell = true)).
  { intros Hlib Hascii rx Hrx. specialize (Hlib pat Hascii).
    rewrite Hrx in Hlib. destruct Hlib as (f & Hf & Hfs).
    destruct (Hcompiled f Hf) as (df & Hdf & _ & Hin).
    exists df. split; [done|]. intros r Hr. rewrite Hin.
    split; intros [Hb (cell & Hcell & Hc)]; (split; [done|]);
      exists cell; (split; [done|]).
    - by rewrite <- Hfs by (by apply Hr).
    - by rewrite Hfs by (by apply Hr). }
  split; [done|]. split; [done|].
  intros Hlib Hascii. split; [by apply Hmodel|]. split.
  - intros Hplain.
    destruct (Hmodel Hlib Hascii (literal pat)) as (df & Hdf & Hin).
    { by apply compile_plain. }
    exists df. split; [done|]. intros r Hr. rewrite (Hin r Hr).
    by setoid_rewrite search_literal.
  - intros Hbad. apply Hrejected. specialize (Hlib pat Hascii).
    by rewrite Hbad in Hlib.
Qed.




(** The fetches with each resort-name setting alone return frames only
    if the fetch with both does. *)
Lemma alone_then_together w s e room excl names st only_excl only_incl :
  snd (fetch_resort_info w s e room excl None st)
  = Returned (Frame only_excl) ->
  snd (fetch_resort_info w s e room false names st)
  = Returned (Frame only_incl) ->
  exists both,
    snd (fetch_resort_info w s e room excl names st) = Returned (Frame both).
Proof.
  rewrite !fetch_snd, !fetch_outcome_Frame.
  intros (s' & e' & resp & data & Hs & He & Hget & Hst & Hjson & Hp).
  intros (s2 & e2 & resp2 & data2 & Hs2 & He2 & Hget2 & _ & Hjson2 & Hp2).
  assert (s2 = s') as -> by congruence.
  assert (e2 = e') as -> by congruence.
  assert (resp2 = resp) as -> by congruence.
  assert (data2 = data) as -> by congruence.
  apply process_data_Returned in Hp as (Hdata & p1 & p2 & _ & Hp1 & H2 & _).
  apply process_data_Returned in Hp2 as (_ & _ & _ & p3 & _ & _ & H3 & _).
  eexists. apply fetch_outcome_Frame. exists s', e', resp, data.
  repeat split; try done. apply process_data_Returned. split; [done|].
  by exists p1, p2, p3.
Qed.

End WithLibraries.

End FilterProperties.

(* ===================================================================== *)
(** ** Properties of change detection and of the loop *)
(* ===================================================================== *)

Module ChangeProperties.
Import Text Re Script ReFacts StoreFacts ScriptFacts.

Section WithLibraries.

Variable re_search : string -> option (string -> bool).
Variable reformat_date : string -> option string.
Variable to_string : list Row -> string.

#[local] Abbreviation check_availability :=
  (check_availability re_search reformat_date to_string).
#[local] Abbreviation run_alerts :=
  (run_alerts re_search reformat_date to_string).
#[local] Abbreviation main := (main re_search reformat_date to_string).

(** The fetch [check_availability] makes for an alert whose dates are
    [s] and [e]. *)
#[local] Abbreviation fetch_for w a s e :=
  (fetch_resort_info re_search reformat_date w s e (cfg_room_type a)
     (default false (cfg_exclude_non_wdw a)) (cfg_resort_names a)).
#[local] Abbreviation outcome_for w a s e :=
  (fetch_outcome re_search reformat_date w s e (cfg_room_type a)
     (default false (cfg_exclude_non_wdw a)) (cfg_resort_names a)).
#[local] Abbreviation events_for w a s e :=
  (fetch_events re_search reformat_date w s e (cfg_room_type a)
     (default false (cfg_exclude_non_wdw a)) (cfg_resort_names a)).

Lemma fetch_for_snd w a s e st : snd (fetch_for w a s e st) = outcome_for w a s e.
Proof. by rewrite fetch_run. Qed.

Lemma fetch_for_trace w a s e st :
  trace (fst (fetch_for w a s e st)) = trace st ++ events_for w a s e.
Proof. by rewrite fetch_run. Qed.


Lemma pushes_fetch t w a s e :
  pushes (t ++ events_for w a s e) = pushes t.
Proof.
  rewrite pushes_app.
  destruct (fetch_events_quiet re_search reformat_date w s e (cfg_room_type a)
              (default false (cfg_exclude_non_wdw a)) (cfg_resort_names a))
    as [-> _].
  by rewrite app_nil_r.
Qed.

Lemma commits_fetch t w a s e :
  commits (t ++ events_for w a s e) = commits t.
Proof.
  rewrite commits_app.
  destruct (fetch_events_quiet re_search reformat_date w s e (cfg_room_type a)
              (default false (cfg_exclude_non_wdw a)) (cfg_resort_names a))
    as [_ ->].
  by rewrite app_nil_r.
Qed.

(** C5: when the fetch of an alert fails on a malformed date or on a
    response whose status is not 200, [check_availability] prints the
    message of the failure and returns: nothing is dispatched, the store
    is as before, and the loop goes on with the next alert. *)
Theorem failed_fetch_is_reported_and_skipped w a s e st rest :
  cfg_start_date a = Some s -> cfg_end_date a = Some e ->
  (reformat_date s = None \/ reformat_date e = None
   \/ exists s' e' resp,
        reformat_date s = Some s' /\ reformat_date e = Some e'
        /\ requests_get w (request_url s' e') = Some resp
        /\ status_code resp <> 200%Z) ->
  exists text,
    snd (fetch_for w a s e st) = Returned (Message text)
    /\ snd (check_availability w a st) = Returned tt
    /\ trace (fst (check_availability w a st))
       = trace (fst (fetch_for w a s e st)) ++ [Print text]
    /\ db (fst (check_availability w a st)) = db st
    /\ pushes (trace (fst (check_availability w a st))) = pushes (trace st)
    /\ commits (trace (fst (check_availability w a st))) = commits (trace st)
    /\ run_alerts w (a :: rest) st
       = run_alerts w rest (fst (check_availability w a st)).
Proof.
  intros Hs He Hfail.
  assert (exists text, outcome_for w a s e = Returned (Message text))
    as [text Hmsg].
  { destruct Hfail as [H | [H | (s' & e' & resp & ? & ? & ? & ?)]].
    - eexists. apply fetch_outcome_Message. left. split; [by left | done].
    - eexists. apply fetch_outcome_Message. left. split; [by right | done].
    - eexists. apply fetch_outcome_Message. right. by exists s', e', resp. }
  exists text. rewrite fetch_for_snd, fetch_for_trace.
  cbn [Script.run_alerts]. unfold bind.
  rewrite (check_availability_run _ _ _ w a s e st Hs He), Hmsg. cbn.
  rewrite app_assoc, pushes_app, commits_app, pushes_fetch, commits_fetch.
  cbn. by rewrite !app_nil_r.
Qed.


(** C7: for an alert without a [pushover] entry, a change to a frame
    that has rows is written to the store under the alert's name and
    printed, and no dispatch is made. *)
Theorem change_without_pushover_is_stored_only w a s e st df :
  cfg_start_date a = Some s -> cfg_end_date a = Some e ->
  cfg_pushover a = None ->
  snd (fetch_for w a s e st) = Returned (Frame df) ->
  df <> [] ->
  select_last_result (db st) (alert_name_of a) <> Some (to_string df) ->
  snd (check_availability w a st) = Returned tt
  /\ db (fst (check_availability w a st))
     = upsert (db st) (alert_name_of a) (to_string df)
  /\ In (mkStored (alert_name_of a) (to_string df))
        (db (fst (check_availability w a st)))
  /\ (alert_name_of a <> None ->
      select_last_result (db (fst (check_availability w a st)))
        (alert_name_of a)
      = Some (to_string df))
  /\ trace (fst (check_availability w a st))
     = trace (fst (fetch_for w a s e st))
       ++ [Commit (alert_name_of a) (to_string df);
           Print (found_message (alert_name_of a) (to_string df))]
  /\ pushes (trace (fst (check_availability w a st))) = pushes (trace st).
Proof.
  intros Hs He Hpush. rewrite fetch_for_snd, fetch_for_trace.
  intros Hout Hdf Hdiff.
  rewrite (check_availability_run _ _ _ w a s e st Hs He), Hout. cbn.
  rewrite decide_True by congruence.
  destruct df as [|r df]; [done|]. cbn. rewrite Hpush. cbn.
  rewrite app_assoc, pushes_app, pushes_fetch. cbn.
  rewrite app_nil_r. repeat split; try done.
  - apply upsert_In.
  - destruct (alert_name_of a) as [k|]; [|done]. intros _.
    apply select_upsert_eq.
Qed.

(** *** What one run of [check_availability] leaves behind *)

(** After a run that fetched a frame, for an alert whose name is not
    null, the store holds the rendering of the frame. *)
Lemma check_stores w a s e st df :
  alert_name_of a <> None ->
  cfg_start_date a = Some s -> cfg_end_date a = Some e ->
  outcome_for w a s e = Returned (Frame df) ->
  select_last_result (db (fst (check_availability w a st))) (alert_name_of a)
  = Some (to_string df).
Proof.
  intros Hname Hs He Hout.
  rewrite (check_availability_run _ _ _ w a s e st Hs He), Hout. cbn.
  destruct (decide (Some (to_string df)
                    <> select_last_result (db st) (alert_name_of a)))
    as [Hd|Hd].
  - destruct (alert_name_of a) as [k|]; [|done].
    destruct df as [|r df]; [|destruct (cfg_pushover a)]; cbn;
      by rewrite select_upsert_eq.
  - cbn. apply dec_stable in Hd. by rewrite <- Hd.
Qed.

(** A run that finds the rendering of the fetched frame in the store
    does nothing but the fetch. *)
Lemma check_idle w a s e st df :
  cfg_start_date a = Some s -> cfg_end_date a = Some e ->
  outcome_for w a s e = Returned (Frame df) ->
  select_last_result (db st) (alert_name_of a) = Some (to_string df) ->
  check_availability w a st
  = (mkState (db st) (trace st ++ events_for w a s e), Returned tt).
Proof.
  intros Hs He Hout Hdb.
  rewrite (check_availability_run _ _ _ w a s e st Hs He), Hout. cbn.
  rewrite decide_False; [done|]. intros H. apply H. by rewrite Hdb.
Qed.




Lemma outcome_same_service w w' a s e :
  (forall url, requests_get w' url = requests_get w url) ->
  outcome_for w' a s e = outcome_for w a s e.
Proof. intros Hsame. by apply fetch_same_service. Qed.




(** C2, as the code has it: [main] has no handler. A failure that the
    fetch reports as a message is printed and the alerts after it are
    processed, and a cycle whose alerts all return is followed by the
    sleep and the next cycle; an exception raised while an alert is
    processed leaves the alert loop and [main] at once, with the alerts
    after it and the later cycles not run. *)
Theorem only_reported_failures_keep_the_loop_going
    w later before a rest st :
  let started :=
    mkState (db st)
      (trace st ++ [Print ("Checking availability at " +:+ now w +:+ "...")])
  in
  (forall st1 st2 ex,
     run_alerts w before started = (st1, Returned tt) ->
     check_availability w a st1 = (st2, Raised ex) ->
     run_alerts w (before ++ a :: rest) started = (st2, Raised ex)
     /\ main (w :: later) (before ++ a :: rest) st = (st2, Raised ex))
  /\ (forall st1 s e text,
        run_alerts w before started = (st1, Returned tt) ->
        cfg_start_date a = Some s -> cfg_end_date a = Some e ->
        snd (fetch_for w a s e st1) = Returned (Message text) ->
        check_availability w a st1
        = (mkState (db st1)
             (trace (fst (fetch_for w a s e st1)) ++ [Print text]),
           Returned tt)
        /\ run_alerts w (before ++ a :: rest) started
           = run_alerts w rest
               (mkState (db st1)
                  (trace (fst (fetch_for w a s e st1)) ++ [Print text])))
  /\ (forall st',
        run_alerts w (before ++ a :: rest) started = (st', Returned tt) ->
        main (w :: later) (before ++ a :: rest) st
        = main later (before ++ a :: rest)
            (mkState (db st') (trace st' ++ [Sleep 300]))).
Proof.
  intros started.
  assert (Hmain : forall alerts,
            main (w :: later) alerts st
            = match run_alerts w alerts started with
              | (st', Returned _) =>
                  main later alerts
                    (mkState (db st') (trace st' ++ [Sleep 300]))
              | (st', Raised ex) => (st', Raised ex)
              end).
  { intros alerts. cbn [Script.main]. unfold bind, print, emit. cbn.
    fold started. by destruct (run_alerts w alerts started) as [st' [[]|ex]]. }
  split; [|split].
  - intros st1 st2 ex Hbefore Hraise. split.
    + rewrite run_alerts_app, Hbefore. cbn [Script.run_alerts].
      unfold bind. by rewrite Hraise.
    + rewrite Hmain, run_alerts_app, Hbefore. cbn [Script.run_alerts].
      unfold bind. by rewrite Hraise.
  - intros st1 s e text Hbefore Hs He. rewrite fetch_for_snd. intros Hmsg.
    assert (Hrun : check_availability w a st1
                   = (mkState (db st1)
                        (trace (fst (fetch_for w a s e st1)) ++ [Print text]),
                      Returned tt)).
    { rewrite fetch_for_trace.
      rewrite (check_availability_run _ _ _ w a s e st1 Hs He), Hmsg.
      by rewrite app_assoc. }
    split; [done|].
    rewrite run_alerts_app, Hbefore. cbn [Script.run_alerts]. unfold bind.
    by rewrite Hrun.
  - intros st' Hst'. by rewrite Hmain, Hst'.
Qed.

End WithLibraries.

End ChangeProperties.

(* ===================================================================== *)
(** ** The properties at work on the sample inputs *)
(* ===================================================================== *)

Module Examples.
Import Text Re Script Samples.

#[local] Abbreviation fetch := (fetch_resort_info fragment_search iso_to_compact).
#[local] Abbreviation check :=
  (check_availability fragment_search iso_to_compact render).
#[local] Abbreviation loop := (Script.main fragment_search iso_to_compact render).

(** The filter value [1.Bedroom] keeps a row whose room type is
    [1 Bedroom Villa], which does not contain it: the claim C4 fails on
    filter values with special characters. *)
Lemma room_type_filter_is_not_a_substring_test :
  snd (fetch (serving inventory) "2025-07-01" "2025-07-05"
         (Some "1.Bedroom") false None fresh)
  = Returned (Frame [row_of_entry boardwalk_1br])
  /\ RoomType (row_of_entry boardwalk_1br) = Some "1 Bedroom Villa"
  /\ contains_ci "1.Bedroom" "1 Bedroom Villa" = false.
Proof. vm_compute. auto. Qed.

(** With Pushover down, the dispatch for alert [A] raises: [main] ends
    in the first cycle with that exception, alert [B] is never fetched
    or stored and nothing sleeps, although [B] on its own runs through.
    The claim C2 fails. *)
Lemma raised_error_halts_the_cycle :
  let alert_a := alert (Some "A") None (Some credentials) in
  let alert_b := alert (Some "B") None None in
  let cycles := [serving_push_down inventory; serving inventory] in
  let run := loop cycles [alert_a; alert_b] fresh in
  snd run = Raised PushoverError
  /\ length (requests (trace (fst run))) = 1
  /\ select_last_result (db (fst run)) (Some "B") = None
  /\ sleeps (trace (fst run)) = []
  /\ snd (check (serving_push_down inventory) alert_b fresh) = Returned tt.
Proof. vm_compute. auto. Qed.

Lemma not_full_rows_are_dropped_witness :
  snd (fetch (serving inventory) "2025-07-01" "2025-07-05"
         (Some "studio") false None fresh) = Returned (Frame studio_rows)
  /\ Availability (row_of_entry riviera_partial) <> Some "Full"
  /\ ~ In (row_of_entry riviera_partial) studio_rows.
Proof.
  assert (H1 : snd (fetch (serving inventory) "2025-07-01" "2025-07-05"
                      (Some "studio") false None fresh)
               = Returned (Frame studio_rows)) by (vm_compute; reflexivity).
  assert (H2 : Availability (row_of_entry riviera_partial) <> Some "Full")
    by (vm_compute; discriminate).
  split; [exact H1 | split; [exact H2 |]].
  exact (FilterProperties.not_full_rows_are_dropped
           fragment_search iso_to_compact (serving inventory)
           "2025-07-01" "2025-07-05" (Some "studio") false None fresh
           studio_rows (row_of_entry riviera_partial) H1 H2).
Defined.

Lemma exclusion_and_inclusion_intersect_witness :
  exists only_excl only_incl,
    snd (fetch (serving inventory) "2025-07-01" "2025-07-05"
           None true None fresh) = Returned (Frame only_excl)
    /\ snd (fetch (serving inventory) "2025-07-01" "2025-07-05"
              None false (Some ["studio"; "aulani"; "villas"]) fresh)
       = Returned (Frame only_incl)
    /\ (forall r, In r [row_of_entry poly_studio; row_of_entry boardwalk_1br]
                  <-> In r only_excl /\ In r only_incl)
    /\ [row_of_entry poly_studio; row_of_entry boardwalk_1br]
       = List.filter (fun r => bool_decide (r ∈ only_incl)) only_excl.
Proof.
  apply (FilterProperties.exclusion_and_inclusion_intersect
           fragment_search iso_to_compact (serving inventory)
           "2025-07-01" "2025-07-05" None true
           (Some ["studio"; "aulani"; "villas"]) fresh).
  vm_compute. reflexivity.
Defined.

(** The filter value "studio" on the sample inventory, with records
    whose room types are ASCII text. *)
Lemma room_type_filter_is_a_pattern_witness :
  let base := [row_of_entry poly_studio; row_of_entry aulani_studio;
               row_of_entry boardwalk_1br] in
  exists df,
    snd (fetch (serving inventory) "2025-07-01" "2025-07-05" (Some "studio")
           false None fresh) = Returned (Frame df)
    /\ forall r,
         (forall cell, RoomType r = Some cell -> ascii_text cell = true) ->
         (In r df <-> In r base
                      /\ exists cell, RoomType r = Some cell
                                      /\ contains_ci "studio" cell = true).
Proof.
  intros base.
  destruct (FilterProperties.room_type_filter_is_a_pattern
              fragment_search iso_to_compact (serving inventory)
              "2025-07-01" "2025-07-05" "studio" false None fresh base)
    as (_ & _ & Hmodel); [discriminate | vm_compute; reflexivity |].
  destruct Hmodel as (_ & Hplain & _).
  - apply FilterProperties.agrees_on_ascii_of_agrees.
    apply FilterProperties.fragment_search_agrees.
  - reflexivity.
  - apply Hplain. reflexivity.
Defined.

(** An alert whose start date is not a date. *)
Lemma failed_fetch_is_reported_and_skipped_witness :
  let bad := mkAlert (Some (Some "Bad")) (Some "next July") (Some "2025-07-05")
               None None None (Some credentials) in
  let good := alert (Some "Good") None None in
  let w := serving inventory in
  iso_to_compact "next July" = None
  /\ exists text,
       snd (fetch w "next July" "2025-07-05" None false None fresh)
       = Returned (Message text)
       /\ snd (check w bad fresh) = Returned tt
       /\ trace (fst (check w bad fresh))
          = trace (fst (fetch w "next July" "2025-07-05" None false None
                          fresh)) ++ [Print text]
       /\ db (fst (check w bad fresh)) = db fresh
       /\ pushes (trace (fst (check w bad fresh))) = pushes (trace fresh)
       /\ commits (trace (fst (check w bad fresh))) = commits (trace fresh)
       /\ run_alerts fragment_search iso_to_compact render w [bad; good] fresh
          = run_alerts fragment_search iso_to_compact render w [good]
              (fst (check w bad fresh)).
Proof.
  intros bad good w.
  assert (H : iso_to_compact "next July" = None) by (vm_compute; reflexivity).
  split; [exact H|].
  apply (ChangeProperties.failed_fetch_is_reported_and_skipped
           fragment_search iso_to_compact render w bad
           "next July" "2025-07-05" fresh [good]);
    [reflexivity | reflexivity | left; exact H].
Defined.


Lemma change_without_pushover_is_stored_only_witness :
  let a := alert (Some "Quiet") (Some "studio") None in
  let w := serving inventory in
  snd (check w a fresh) = Returned tt
  /\ db (fst (check w a fresh))
     = upsert (db fresh) (Some "Quiet") (render studio_rows)
  /\ In (mkStored (Some "Quiet") (render studio_rows))
        (db (fst (check w a fresh)))
  /\ (alert_name_of a <> None ->
      select_last_result (db (fst (check w a fresh))) (alert_name_of a)
      = Some (render studio_rows))
  /\ trace (fst (check w a fresh))
     = trace (fst (fetch w "2025-07-01" "2025-07-05" (Some "studio") false
                     None fresh))
       ++ [Commit (Some "Quiet") (render studio_rows);
           Print (found_message (Some "Quiet") (render studio_rows))]
  /\ pushes (trace (fst (check w a fresh))) = pushes (trace fresh).
Proof.
  intros a w.
  apply (ChangeProperties.change_without_pushover_is_stored_only
           fragment_search iso_to_compact render w a
           "2025-07-01" "2025-07-05" fresh studio_rows);
    [reflexivity | reflexivity | reflexivity | vm_compute; reflexivity
    | discriminate | vm_compute; discriminate].
Defined.







(** The empty answer of the service makes the first alert raise
    [KeyError]; the second alert is not run. *)
Lemma only_reported_failures_keep_the_loop_going_witness :
  let a := alert (Some "A") None None in
  let b := alert (Some "B") None None in
  let w := serving [] in
  exists st2,
    check w a (mkState [] [Print "Checking availability at 2025-06-01 09:00:00..."])
    = (st2, Raised (KeyError "Availability"))
    /\ loop [w; w] [a; b] fresh = (st2, Raised (KeyError "Availability")).
Proof.
  intros a b w.
  destruct (ChangeProperties.only_reported_failures_keep_the_loop_going
              fragment_search iso_to_compact render w [w] [] a [b] fresh)
    as (Hraise & _ & _).
  eexists. split; [vm_compute; reflexivity|].
  refine (proj2 (Hraise _ _ (KeyError "Availability") _ _));
    vm_compute; reflexivity.
Defined.

End Examples.

(* ===================================================================== *)
(** ** Properties of the store *)
(* ===================================================================== *)

Module StoreProperties.
Import Script StoreFacts.

(** X1: what [update_last_result] writes under a name that is text is
    what [fetch_last_result] reads back under that name; under NULL
    nothing is read back, whatever was written. Reading changes
    nothing, and the other names read as before the write. *)
Theorem stored_result_is_read_back alert_name result_str other st :
  let st' := fst (update_last_result alert_name result_str st) in
  snd (fetch_last_result alert_name st')
  = Returned match alert_name with
             | Some _ => Some result_str
             | None => None
             end
  /\ fst (fetch_last_result alert_name st') = st'
  /\ (other <> alert_name ->
      snd (fetch_last_result other st') = snd (fetch_last_result other st)).
Proof.
  cbn. split; [|split; [done|]].
  - destruct alert_name as [k|].
    + by rewrite select_upsert_eq.
    + by rewrite select_null.
  - intros Hne. destruct other as [k|].
    + by rewrite select_upsert_ne.
    + by rewrite !select_null.
Qed.

(** X2: the upsert keeps one row per name that is text, and none per
    NULL. Writing twice under a text name leaves the table as the second
    write alone would, with as many rows as after the first; writing
    twice under NULL adds two rows. A write adds a row exactly when
    nothing is selected under its name, and a table whose text names are
    all different stays so. *)
Theorem upsert_keeps_one_row_per_name alert_name first second st :
  let st1 := fst (update_last_result alert_name first st) in
  let st2 := fst (update_last_result alert_name second st1) in
  (alert_name <> None ->
   db st2 = db (fst (update_last_result alert_name second st))
   /\ length (db st2) = length (db st1))
  /\ (alert_name = None ->
      db st2 = db st ++ [mkStored None first; mkStored None second])
  /\ length (db st1)
     = match select_last_result (db st) alert_name with
       | Some _ => length (db st)
       | None => S (length (db st))
       end
  /\ (NoDup (omap stored_name (db st)) -> NoDup (omap stored_name (db st1))).
Proof.
  cbn. split; [|split; [|split]].
  - intros Hname. destruct alert_name as [k|]; [|done].
    rewrite upsert_upsert. split; [done|].
    by rewrite !length_upsert.
  - intros ->. rewrite !upsert_null, <- app_assoc. done.
  - apply length_upsert.
  - apply NoDup_text_names_upsert.
Qed.

End StoreProperties.

(* ===================================================================== *)
(** ** Further properties of the fetch and of the filters *)
(* ===================================================================== *)

Module FetchProperties.
Import Text Re Script ReFacts ScriptFacts.

Lemma requests_app t1 t2 : requests (t1 ++ t2) = requests t1 ++ requests t2.
Proof. apply omap_app. Qed.

Lemma filter_sublist {A} (p : A -> bool) (l : list A) :
  List.filter p l `sublist_of` l.
Proof.
  induction l as [|x l IH]; cbn; [constructor|].
  destruct (p x); by constructor.
Qed.

Section WithLibraries.

Variable re_search : string -> option (string -> bool).
Variable reformat_date : string -> option string.

#[local] Abbreviation fetch_resort_info :=
  (fetch_resort_info re_search reformat_date).
#[local] Abbreviation fetch_outcome := (fetch_outcome re_search reformat_date).
#[local] Abbreviation process_data := (process_data re_search).

Lemma fetch_outcome_of w s e room excl names st :
  snd (fetch_resort_info w s e room excl names st)
  = fetch_outcome w s e room excl names.
Proof. by rewrite fetch_run. Qed.

(** The outcome of a fetch whose dates are well formed and whose
    request is answered with status 200 and a JSON object. *)
Lemma fetch_outcome_answered w s e s' e' resp data room excl names :
  reformat_date s = Some s' -> reformat_date e = Some e' ->
  requests_get w (request_url s' e') = Some resp ->
  status_code resp = 200%Z -> json resp = JsonObject data ->
  fetch_outcome w s e room excl names
  = match process_data data room excl names with
    | Returned df => Returned (Frame df)
    | Raised ex => Raised ex
    end.
Proof.
  intros Hs He Hget Hst Hjson.
  unfold Script.fetch_outcome, Script.fetch_resort_info.
  rewrite Hs, He. unfold bind, emit, lift, ret. cbn. rewrite Hget.
  rewrite decide_False by (by intros ?). rewrite Hjson.
  by destruct (process_data _ _ _ _).
Qed.

(** X3: a fetch sends exactly one request, to the address made of the
    two reformatted dates, when both dates are well formed, and none when
    one is not; the store is never touched. *)
Theorem one_request_when_dates_are_well_formed w s e room excl names st :
  requests (trace (fst (fetch_resort_info w s e room excl names st)))
  = requests (trace st)
    ++ match reformat_date s, reformat_date e with
       | Some s', Some e' => [request_url s' e']
       | _, _ => []
       end
  /\ db (fst (fetch_resort_info w s e room excl names st)) = db st.
Proof.
  rewrite fetch_run. cbn. split; [|done]. rewrite requests_app. f_equal.
  unfold Script.fetch_events, Script.fetch_resort_info.
  destruct (reformat_date s), (reformat_date e); try done.
  unfold bind, emit, raise, ret, lift. cbn.
  destruct (requests_get w _) as [resp|]; [|done].
  case_decide; [done|].
  destruct (json resp); [done..|]. by destruct (Script.process_data _ _ _ _ _).
Qed.

(** X4: when the service answers 200 with an empty JSON object, the
    frame has no column and the fetch raises [KeyError] for
    ["Availability"], whatever the filters are. *)
Theorem empty_answer_raises_KeyError w s e s' e' resp room excl names st :
  reformat_date s = Some s' -> reformat_date e = Some e' ->
  requests_get w (request_url s' e') = Some resp ->
  status_code resp = 200%Z -> json resp = JsonObject [] ->
  snd (fetch_resort_info w s e room excl names st)
  = Raised (KeyError "Availability").
Proof.
  intros Hs He Hget Hst Hjson. rewrite fetch_outcome_of.
  by rewrite (fetch_outcome_answered w s e s' e' resp []).
Qed.

(** X5: with well-formed dates, a request that fails raises
    [ConnectionError]; the status is looked at before the body, so any
    answer with another status than 200 gives the status message even if
    its body is no JSON; an answer with status 200 whose body is no JSON
    raises [JSONDecodeError], and one whose body is JSON but no object
    raises [AttributeError] where its values are asked for. *)
Theorem transport_failures w s e s' e' room excl names st :
  reformat_date s = Some s' -> reformat_date e = Some e' ->
  (requests_get w (request_url s' e') = None ->
   snd (fetch_resort_info w s e room excl names st) = Raised ConnectionError)
  /\ (forall resp,
        requests_get w (request_url s' e') = Some resp ->
        status_code resp <> 200%Z ->
        snd (fetch_resort_info w s e room excl names st)
        = Returned (Message ("Error fetching data: "
                             +:+ pretty (status_code resp))))
  /\ (forall resp,
        requests_get w (request_url s' e') = Some resp ->
        status_code resp = 200%Z -> json resp = NotJson ->
        snd (fetch_resort_info w s e room excl names st)
        = Raised JSONDecodeError)
  /\ (forall resp,
        requests_get w (request_url s' e') = Some resp ->
        status_code resp = 200%Z -> json resp = JsonOther ->
        snd (fetch_resort_info w s e room excl names st)
        = Raised AttributeError).
Proof.
  intros Hs He. rewrite fetch_outcome_of.
  unfold Script.fetch_outcome, Script.fetch_resort_info.
  rewrite Hs, He. unfold bind, emit, lift, ret, raise. cbn.
  split; [|split; [|split]].
  - by intros ->.
  - intros resp -> Hst. by rewrite decide_True.
  - intros resp -> Hst Hjson. rewrite decide_False by (by intros ?).
    by rewrite Hjson.
  - intros resp -> Hst Hjson. rewrite decide_False by (by intros ?).
    by rewrite Hjson.
Qed.

(** X6: the frame returned holds rows made from the entries of the
    answer, in the order of the answer: it is a subsequence of the rows
    of all entries. *)
Theorem returned_rows_keep_the_order_of_the_answer
    w s e s' e' resp data room excl names st df :
  reformat_date s = Some s' -> reformat_date e = Some e' ->
  requests_get w (request_url s' e') = Some resp ->
  json resp = JsonObject data ->
  snd (fetch_resort_info w s e room excl names st) = Returned (Frame df) ->
  df `sublist_of` map row_of_entry data.
Proof.
  intros Hs He Hget Hjson. rewrite fetch_outcome_of, fetch_outcome_Frame.
  intros (s2 & e2 & resp2 & data2 & Hs2 & He2 & Hget2 & _ & Hjson2 & Hp).
  assert (s2 = s') as -> by congruence.
  assert (e2 = e') as -> by congruence.
  assert (resp2 = resp) as -> by congruence.
  assert (data2 = data) as -> by congruence.
  apply process_data_Returned in Hp as (_ & p1 & p2 & p3 & _ & _ & _ & ->).
  repeat (etrans; [apply filter_sublist|]). done.
Qed.




End WithLibraries.

End FetchProperties.

(* ===================================================================== *)
(** ** Further properties of a run: what it writes, sends and leaves *)
(* ===================================================================== *)

Module RunProperties.
Import Text Re Script ReFacts StoreFacts ScriptFacts.

(** *** Traces *)

Lemma sleeps_app t1 t2 : sleeps (t1 ++ t2) = sleeps t1 ++ sleeps t2.
Proof. apply omap_app. Qed.

Lemma prints_app t1 t2 : prints (t1 ++ t2) = prints t1 ++ prints t2.
Proof. apply omap_app. Qed.

Lemma requests_split t1 t2 : requests (t1 ++ t2) = requests t1 ++ requests t2.
Proof. apply omap_app. Qed.

Lemma apply_commits_app cs1 cs2 d :
  apply_commits (cs1 ++ cs2) d = apply_commits cs2 (apply_commits cs1 d).
Proof. apply fold_left_app. Qed.

(** A name that is written by none of the writes reads as before, a
    name that had a row still has one, and no row is removed. *)
Lemma apply_commits_other cs d k :
  (forall v, ~ In (k, v) cs) ->
  select_last_result (apply_commits cs d) k = select_last_result d k.
Proof.
  destruct k as [k|]; [|by rewrite !select_null].
  revert d. induction cs as [|[k' v'] cs IH]; intros d Hk; [done|].
  cbn. rewrite IH.
  - apply select_upsert_ne. intros ->. apply (Hk v'). by left.
  - intros v Hin. apply (Hk v). by right.
Qed.

Lemma apply_commits_keeps cs d k :
  is_Some (select_last_result d k) ->
  is_Some (select_last_result (apply_commits cs d) k).
Proof.
  destruct k as [k|]; [|rewrite select_null; by intros []].
  revert d. induction cs as [|[k' v'] cs IH]; intros d Hk; [done|].
  cbn. apply IH. by apply select_upsert_is_Some.
Qed.

Lemma apply_commits_length cs d : length d <= length (apply_commits cs d).
Proof.
  revert d. induction cs as [|[k v] cs IH]; intros d; [done|].
  cbn. etrans; [|apply IH]. rewrite length_upsert.
  destruct (select_last_result d k); lia.
Qed.

Lemma no_push_lookup t i message target :
  pushes t = [] -> t !! i <> Some (Push message target).
Proof.
  intros Hnone Hi. apply list_elem_of_lookup_2 in Hi.
  assert (Hin : (message, target) ∈ pushes t).
  { apply list_elem_of_omap. by eexists. }
  rewrite Hnone in Hin. by apply not_elem_of_nil in Hin.
Qed.

Lemma dispatch_in_order_quiet t : pushes t = [] -> dispatch_in_order t.
Proof. intros Hnone i message target Hi. by apply no_push_lookup in Hi. Qed.

Lemma dispatch_in_order_app t1 t2 :
  dispatch_in_order t1 -> dispatch_in_order t2 ->
  dispatch_in_order (t1 ++ t2).
Proof.
  intros H1 H2 i message target Hi.
  apply lookup_app_Some in Hi as [Hi | [Hlen Hi]].
  - destruct (H1 i message target Hi) as (j & n & r & -> & Hc & Hp & Hm).
    exists j, n, r. repeat split; try done; by apply lookup_app_l_Some.
  - destruct (H2 _ message target Hi) as (j & n & r & Hij & Hc & Hp & Hm).
    exists (length t1 + j), n, r. repeat split; try done.
    + lia.
    + rewrite lookup_app_r by lia. by replace (length t1 + j - length t1) with j by lia.
    + rewrite lookup_app_r by lia.
      by replace (S (length t1 + j) - length t1) with (S j) by lia.
Qed.

Lemma dispatch_in_order_triple alert_name result_str target :
  dispatch_in_order
    [Commit alert_name result_str;
     Print (found_message alert_name result_str);
     Push (found_message alert_name result_str) target].
Proof.
  intros i message target' Hi.
  destruct i as [|[|[|i]]]; try discriminate.
  injection Hi as <- <-. by exists 0, alert_name, result_str.
Qed.

Section WithLibraries.

Variable re_search : string -> option (string -> bool).
Variable reformat_date : string -> option string.
Variable to_string : list Row -> string.

#[local] Abbreviation check_availability :=
  (check_availability re_search reformat_date to_string).
#[local] Abbreviation run_alerts :=
  (run_alerts re_search reformat_date to_string).
#[local] Abbreviation main := (main re_search reformat_date to_string).
#[local] Abbreviation script := (script re_search reformat_date to_string).
#[local] Abbreviation fetch_for w a s e :=
  (fetch_resort_info re_search reformat_date w s e (cfg_room_type a)
     (default false (cfg_exclude_non_wdw a)) (cfg_resort_names a)).
#[local] Abbreviation outcome_for w a s e :=
  (fetch_outcome re_search reformat_date w s e (cfg_room_type a)
     (default false (cfg_exclude_non_wdw a)) (cfg_resort_names a)).
#[local] Abbreviation events_for w a s e :=
  (fetch_events re_search reformat_date w s e (cfg_room_type a)
     (default false (cfg_exclude_non_wdw a)) (cfg_resort_names a)).

(** *** One alert *)

(** A fetch adds nothing to the trace, or one request. *)
Lemma fetch_events_shape w s e room excl names :
  fetch_events re_search reformat_date w s e room excl names = []
  \/ exists url,
       fetch_events re_search reformat_date w s e room excl names
       = [HttpGet url].
Proof.
  unfold fetch_events, fetch_resort_info.
  destruct (reformat_date s), (reformat_date e); try (by left).
  right. eexists. unfold bind, emit, raise, ret, lift. cbn.
  destruct (requests_get w _) as [resp|]; [|done].
  case_decide; [done|].
  destruct (json resp); [done..|]. by destruct (process_data _ _ _ _ _).
Qed.

(** The events one run of [check_availability] adds: those of the
    fetch, then nothing, a printed line, a write with a printed line, or
    a write, the printed message and its dispatch. *)
Lemma check_shape w a st :
  exists fe tail,
    (fe = [] \/ exists url, fe = [HttpGet url])
    /\ trace (fst (check_availability w a st)) = trace st ++ fe ++ tail
    /\ db (fst (check_availability w a st))
       = apply_commits (commits tail) (db st)
    /\ (tail = []
        \/ (exists text, tail = [Print text])
        \/ (exists result_str text,
              tail = [Commit (alert_name_of a) result_str; Print text])
        \/ (exists result_str target,
              tail = [Commit (alert_name_of a) result_str;
                      Print (found_message (alert_name_of a) result_str);
                      Push (found_message (alert_name_of a) result_str)
                           target])).
Proof.
  destruct (cfg_start_date a) as [s|] eqn:Hs.
  2: { rewrite check_availability_no_start by done.
       exists [], []. cbn. rewrite app_nil_r. auto. }
  destruct (cfg_end_date a) as [e|] eqn:He.
  2: { rewrite (check_availability_no_end _ _ _ w a s) by done.
       exists [], []. cbn. rewrite app_nil_r. auto. }
  rewrite (check_availability_run _ _ _ w a s e st Hs He).
  exists (events_for w a s e).
  pose proof (fetch_events_shape w s e (cfg_room_type a)
                (default false (cfg_exclude_non_wdw a)) (cfg_resort_names a))
    as Hfe.
  destruct (outcome_for w a s e) as [[text|df]|ex]; cbn.
  - exists [Print text]. repeat split; try done. right. left. by exists text.
  - case_decide; cbn.
    + destruct df as [|r df]; cbn.
      * eexists. repeat split; [done..|]. right. right. left. by eexists _, _.
      * destruct (cfg_pushover a) as [target|]; cbn.
        -- eexists. repeat split; [done..|]. right. right. right.
           by eexists _, _.
        -- eexists. repeat split; [done..|]. right. right. left.
           by eexists _, _.
    + exists []. rewrite app_nil_r. repeat split; try done. by left.
  - exists []. rewrite app_nil_r. repeat split; try done. by left.
Qed.

(** What follows from the shape: the store is the old one with the
    writes of the run, which all go to the row of the alert; dispatches
    are in order; there is at most one request and no sleep. *)
Lemma check_effects w a st :
  exists evs,
    trace (fst (check_availability w a st)) = trace st ++ evs
    /\ db (fst (check_availability w a st))
       = apply_commits (commits evs) (db st)
    /\ dispatch_in_order evs
    /\ length (requests evs) <= 1
    /\ sleeps evs = []
    /\ (forall k v, In (k, v) (commits evs) -> k = alert_name_of a).
Proof.
  destruct (check_shape w a st) as (fe & tail & Hfe & Htrace & Hdb & Htail).
  exists (fe ++ tail).
  assert (Hquiet : commits fe = [] /\ pushes fe = [] /\ sleeps fe = []
                   /\ length (requests fe) <= 1).
  { destruct Hfe as [-> | [url ->]]; cbn; repeat split; lia. }
  destruct Hquiet as (Hc & Hp & Hs & Hr).
  rewrite commits_app, Hc, requests_split, sleeps_app, Hs, length_app.
  cbn [app]. split; [done|]. split; [done|].
  destruct Htail as [-> | [[text ->] | [(str & text & ->)
                                       | (str & target & ->)]]]; cbn.
  - repeat split; try done; try lia.
    apply dispatch_in_order_quiet. by rewrite app_nil_r.
  - repeat split; try done; try lia.
    apply dispatch_in_order_quiet. by rewrite pushes_app, Hp.
  - repeat split; try lia.
    + apply dispatch_in_order_quiet. by rewrite pushes_app, Hp.
    + intros k v [[= <- _]|[]]. done.
  - repeat split; try lia.
    + apply dispatch_in_order_app;
        [by apply dispatch_in_order_quiet | apply dispatch_in_order_triple].
    + intros k v [[= <- _]|[]]. done.
Qed.

(** *** The alert loop and the polling loop *)

Lemma run_alerts_cons w a rest st :
  run_alerts w (a :: rest) st
  = match check_availability w a st with
    | (st1, Returned _) => run_alerts w rest st1
    | (st1, Raised ex) => (st1, Raised ex)
    end.
Proof. done. Qed.

Lemma run_alerts_effects w alerts st :
  exists evs,
    trace (fst (run_alerts w alerts st)) = trace st ++ evs
    /\ db (fst (run_alerts w alerts st)) = apply_commits (commits evs) (db st)
    /\ dispatch_in_order evs
    /\ length (requests evs) <= length alerts
    /\ sleeps evs = []
    /\ (forall k v, In (k, v) (commits evs) ->
                    In k (map alert_name_of alerts)).
Proof.
  revert st. induction alerts as [|a rest IH]; intros st.
  { exists []. cbn. rewrite app_nil_r. by repeat split. }
  rewrite run_alerts_cons.
  destruct (check_effects w a st) as (ev1 & Ht1 & Hd1 & Ho1 & Hr1 & Hs1 & Hk1).
  destruct (check_availability w a st) as [st1 [[]|ex]]; cbn in Ht1, Hd1.
  - destruct (IH st1) as (ev2 & Ht2 & Hd2 & Ho2 & Hr2 & Hs2 & Hk2).
    exists (ev1 ++ ev2).
    rewrite Ht2, Hd2, Ht1, Hd1, commits_app, apply_commits_app,
      requests_split, sleeps_app, length_app, Hs1, Hs2, app_assoc.
    repeat split; try done.
    + by apply dispatch_in_order_app.
    + cbn. lia.
    + intros k v Hin. apply in_app_or in Hin as [Hin|Hin].
      * left. symmetry. by apply (Hk1 k v).
      * right. by apply (Hk2 k v).
  - exists ev1. cbn. repeat split; try done.
    + lia.
    + intros k v Hin. left. symmetry. by apply (Hk1 k v).
Qed.

Lemma main_cons w later alerts st :
  main (w :: later) alerts st
  = match run_alerts w alerts
            (mkState (db st)
               (trace st ++ [Print ("Checking availability at "
                                    +:+ now w +:+ "...")])) with
    | (st', Returned _) =>
        main later alerts (mkState (db st') (trace st' ++ [Sleep 300]))
    | (st', Raised ex) => (st', Raised ex)
    end.
Proof.
  cbn [Script.main]. unfold bind, print, emit. cbn.
  by destruct (run_alerts w alerts _) as [st' [[]|ex]].
Qed.

Lemma main_effects cycles alerts st :
  exists evs,
    trace (fst (main cycles alerts st)) = trace st ++ evs
    /\ db (fst (main cycles alerts st)) = apply_commits (commits evs) (db st)
    /\ dispatch_in_order evs
    /\ length (requests evs) <= length cycles * length alerts
    /\ (forall k v, In (k, v) (commits evs) ->
                    In k (map alert_name_of alerts))
    /\ match snd (main cycles alerts st) with
       | Returned _ => sleeps evs = replicate (length cycles) 300%Z
       | Raised _ => length (sleeps evs) < length cycles
       end.
Proof.
  revert st. induction cycles as [|w later IH]; intros st.
  { exists []. cbn. rewrite app_nil_r. repeat split; try done; lia. }
  rewrite main_cons.
  set (checking := Print ("Checking availability at " +:+ now w +:+ "...")).
  set (started := mkState (db st) (trace st ++ [checking])).
  destruct (run_alerts_effects w alerts started)
    as (ev1 & Ht1 & Hd1 & Ho1 & Hr1 & Hs1 & Hk1).
  assert (Hlen : length (w :: later) * length alerts
                 = length alerts + length later * length alerts) by done.
  destruct (run_alerts w alerts started) as [st1 [[]|ex]]; cbn in Ht1, Hd1.
  - set (slept := mkState (db st1) (trace st1 ++ [Sleep 300])).
    destruct (IH slept) as (ev2 & Ht2 & Hd2 & Ho2 & Hr2 & Hk2 & Hs2).
    exists ([checking] ++ ev1 ++ [Sleep 300] ++ ev2).
    split; [|split; [|split; [|split; [|split]]]].
    + rewrite Ht2. unfold slept. cbn [trace]. rewrite Ht1.
      by rewrite <- !app_assoc.
    + rewrite Hd2. unfold slept. cbn [db]. rewrite Hd1.
      by rewrite !commits_app, !apply_commits_app.
    + apply dispatch_in_order_app; [by apply dispatch_in_order_quiet|].
      apply dispatch_in_order_app; [done|].
      apply dispatch_in_order_app; [by apply dispatch_in_order_quiet | done].
    + rewrite !requests_split, !length_app, Hlen.
      change (length (requests [checking])) with 0.
      change (length (requests [Sleep 300])) with 0. lia.
    + intros k v. rewrite !commits_app.
      change (commits [checking]) with (@nil (option string * string)).
      change (commits [Sleep 300]) with (@nil (option string * string)).
      cbn [app]. intros Hin. apply in_app_or in Hin as [Hin|Hin];
        [by apply (Hk1 k v) | by apply (Hk2 k v)].
    + rewrite !sleeps_app, Hs1.
      change (sleeps [checking]) with (@nil Z).
      change (sleeps [Sleep 300]) with [300%Z]. cbn [app].
      destruct (snd (main later alerts slept)).
      * by rewrite Hs2.
      * cbn [length]. lia.
  - exists ([checking] ++ ev1). cbn [fst snd].
    split; [|split; [|split; [|split; [|split]]]].
    + rewrite Ht1. by rewrite <- app_assoc.
    + rewrite Hd1. by rewrite commits_app, apply_commits_app.
    + apply dispatch_in_order_app; [by apply dispatch_in_order_quiet | done].
    + rewrite requests_split, length_app, Hlen.
      change (length (requests [checking])) with 0. lia.
    + intros k v. rewrite commits_app.
      change (commits [checking]) with (@nil (option string * string)).
      cbn [app]. by apply Hk1.
    + rewrite sleeps_app, Hs1. cbn. lia.
Qed.

(** *** Properties *)

(** X10: an alert without a [start_date] entry, or with one and without
    an [end_date] entry, makes [check_availability] raise [KeyError] for
    that key before anything else happens: no request, no print, no
    write. *)
Theorem missing_date_key_raises_at_once w a st :
  (cfg_start_date a = None ->
   check_availability w a st = (st, Raised (KeyError "start_date")))
  /\ (forall s, cfg_start_date a = Some s -> cfg_end_date a = None ->
      check_availability w a st = (st, Raised (KeyError "end_date"))).
Proof.
  split.
  - apply check_availability_no_start.
  - intros s. apply check_availability_no_end.
Qed.

(** X11: when [check_availability] raises, either the exception comes
    from the dispatch, after the new rendering was written and printed,
    or nothing was written, printed or dispatched. *)
Theorem only_a_failed_dispatch_follows_a_write w a st ex :
  snd (check_availability w a st) = Raised ex ->
  let st' := fst (check_availability w a st) in
  (ex = PushoverError
   /\ exists result_str target,
        cfg_pushover a = Some target
        /\ db st' = upsert (db st) (alert_name_of a) result_str
        /\ pushes (trace st')
           = pushes (trace st)
             ++ [(found_message (alert_name_of a) result_str, target)])
  \/ (db st' = db st
      /\ commits (trace st') = commits (trace st)
      /\ pushes (trace st') = pushes (trace st)
      /\ prints (trace st') = prints (trace st)).
Proof.
  destruct (cfg_start_date a) as [s|] eqn:Hs.
  2: { rewrite check_availability_no_start by done. by right. }
  destruct (cfg_end_date a) as [e|] eqn:He.
  2: { rewrite (check_availability_no_end _ _ _ w a s) by done. by right. }
  rewrite (check_availability_run _ _ _ w a s e st Hs He).
  assert (Hquiet : commits (events_for w a s e) = []
                   /\ pushes (events_for w a s e) = []
                   /\ prints (events_for w a s e) = []).
  { destruct (fetch_events_shape w s e (cfg_room_type a)
                (default false (cfg_exclude_non_wdw a)) (cfg_resort_names a))
      as [-> | [url ->]]; done. }
  destruct Hquiet as (Hc & Hp & Hpr).
  destruct (outcome_for w a s e) as [[text|df]|ex']; cbn; [done| |].
  - case_decide; cbn; [|done].
    destruct df as [|r df]; cbn; [done|].
    destruct (cfg_pushover a) as [target|]; cbn; [|done].
    destruct (send_message w _ target); [done|]. intros [= <-].
    left. split; [done|]. eexists _, target. repeat split.
    by rewrite !pushes_app, Hp.
  - intros _. right.
    by rewrite commits_app, pushes_app, prints_app, Hc, Hp, Hpr, !app_nil_r.
Qed.

(** X12: on a database that [initialize_db] creates, every check that
    fetches a frame is a change: the rendering is written, and the table
    then holds this one row. *)
Theorem first_check_on_a_new_database_writes w a s e t df :
  cfg_start_date a = Some s -> cfg_end_date a = Some e ->
  snd (fetch_for w a s e (mkState (initialize_db None) t))
  = Returned (Frame df) ->
  let st' := fst (check_availability w a (mkState (initialize_db None) t)) in
  db st' = [mkStored (alert_name_of a) (to_string df)]
  /\ commits (trace st') = commits t ++ [(alert_name_of a, to_string df)].
Proof.
  intros Hs He. rewrite fetch_run. cbn [snd]. intros Hout.
  rewrite (check_availability_run _ _ _ w a s e _ Hs He), Hout. cbn.
  assert (Hc : commits (events_for w a s e) = []).
  { destruct (fetch_events_shape w s e (cfg_room_type a)
                (default false (cfg_exclude_non_wdw a)) (cfg_resort_names a))
      as [-> | [url ->]]; done. }
  rewrite decide_True by done.
  destruct df as [|r df]; [|destruct (cfg_pushover a)]; cbn;
    rewrite !commits_app, Hc; done.
Qed.

(** X13: whatever happens in the loop, what is selected under a name
    that no configured alert has is selected as before, a name under
    which something was selected still selects something, and no row is
    ever removed. *)
Theorem main_touches_only_configured_rows cycles alerts st :
  let st' := fst (main cycles alerts st) in
  (forall k, ~ In k (map alert_name_of alerts) ->
     select_last_result (db st') k = select_last_result (db st) k)
  /\ (forall k, is_Some (select_last_result (db st) k) ->
                is_Some (select_last_result (db st') k))
  /\ length (db st) <= length (db st').
Proof.
  destruct (main_effects cycles alerts st) as (evs & _ & Hdb & _ & _ & Hk & _).
  cbn zeta. rewrite Hdb. split; [|split].
  - intros k Hnot. apply apply_commits_other. intros v Hin.
    apply Hnot. by apply (Hk k v).
  - intros k. apply apply_commits_keeps.
  - apply apply_commits_length.
Qed.

(** X14: at every point the script has reached, the table is the one
    [initialize_db] gave with the writes of the trace applied in order:
    nothing changes the store but a recorded write. *)
Theorem store_is_the_writes_of_the_trace file config cycles :
  let st' := fst (script file config cycles) in
  db st' = apply_commits (commits (trace st')) (initialize_db file).
Proof.
  unfold Script.script.
  destruct (configured_alerts config) as [alerts|ex].
  - destruct (main_effects cycles alerts (mkState (initialize_db file) []))
      as (evs & Ht & Hdb & _).
    cbn zeta. by rewrite Hdb, Ht.
  - by destruct cycles.
Qed.

(** X15: in the whole trace of the script, every dispatch comes right
    after the write of a rendering and the print of the message made
    from the alert name and that rendering, and sends that message. *)
Theorem every_dispatch_follows_its_write file config cycles :
  dispatch_in_order (trace (fst (script file config cycles))).
Proof.
  unfold Script.script.
  destruct (configured_alerts config) as [alerts|ex].
  - destruct (main_effects cycles alerts (mkState (initialize_db file) []))
      as (evs & Ht & _ & Ho & _).
    by rewrite Ht.
  - by destruct cycles; apply dispatch_in_order_quiet.
Qed.

(** X16: the loop sends at most one request per alert and cycle; when
    it returns from its cycles it has slept 300 seconds after each, and
    when it raises it has slept after fewer cycles than it was given. *)
Theorem one_request_per_alert_and_one_sleep_per_cycle cycles alerts st :
  let st' := fst (main cycles alerts st) in
  length (requests (trace st'))
  <= length (requests (trace st)) + length cycles * length alerts
  /\ (snd (main cycles alerts st) = Returned tt ->
      sleeps (trace st')
      = sleeps (trace st) ++ replicate (length cycles) 300%Z)
  /\ (forall ex, snd (main cycles alerts st) = Raised ex ->
      length (sleeps (trace st'))
      < length (sleeps (trace st)) + length cycles).
Proof.
  destruct (main_effects cycles alerts st) as (evs & Ht & _ & _ & Hr & _ & Hs).
  cbn zeta. rewrite Ht, requests_split, sleeps_app, !length_app.
  split; [lia|]. split.
  - intros Hout. rewrite Hout in Hs. by rewrite Hs.
  - intros ex Hout. rewrite Hout in Hs. lia.
Qed.

Lemma main_without_alerts cycles st :
  main cycles [] st
  = (mkState (db st)
       (trace st
        ++ flat_map (fun w => [Print ("Checking availability at "
                                      +:+ now w +:+ "...");
                               Sleep 300]) cycles),
     Returned tt).
Proof.
  revert st. induction cycles as [|w later IH]; intros [d t].
  - cbn. by rewrite app_nil_r.
  - rewrite main_cons. cbn [Script.run_alerts ret]. rewrite IH. cbn.
    by rewrite <- !app_assoc.
Qed.

(** X17: a configuration that is a mapping without an [alerts] entry,
    or with an empty list there, makes the script print its line and
    sleep in every cycle and do nothing else: no request, no write, no
    dispatch. With an [alerts] entry that has no value the first cycle
    prints its line and the iteration raises [TypeError]; a
    configuration that is no mapping raises [AttributeError] at the same
    place. *)
Theorem no_alerts_only_prints_and_sleeps file config cycles :
  (config = Mapping None \/ config = Mapping (Some (Some [])) ->
   script file config cycles
   = (mkState (initialize_db file)
        (flat_map (fun w => [Print ("Checking availability at "
                                    +:+ now w +:+ "...");
                             Sleep 300]) cycles),
      Returned tt))
  /\ (forall w later ex,
        cycles = w :: later ->
        config = Mapping (Some None) /\ ex = TypeError
        \/ config = NotMapping /\ ex = AttributeError ->
        script file config cycles
        = (mkState (initialize_db file)
             [Print ("Checking availability at " +:+ now w +:+ "...")],
           Raised ex)).
Proof.
  split.
  - intros [-> | ->]; unfold Script.script; cbn [configured_alerts];
      by rewrite main_without_alerts.
  - by intros w later ex -> [[-> ->] | [-> ->]].
Qed.

(** *** A poll cycle after a poll cycle *)

Lemma run_alerts_other_rows w alerts st k :
  ~ In k (map alert_name_of alerts) ->
  select_last_result (db (fst (run_alerts w alerts st))) k
  = select_last_result (db st) k.
Proof.
  intros Hnot.
  destruct (run_alerts_effects w alerts st) as (evs & _ & Hdb & _ & _ & _ & Hk).
  rewrite Hdb. apply apply_commits_other. intros v Hin.
  apply Hnot. by apply (Hk k v).
Qed.

(** An alert whose check returned has both dates, and its fetch
    returned. *)
Lemma check_returned w a st st' :
  check_availability w a st = (st', Returned tt) ->
  exists s e r,
    cfg_start_date a = Some s /\ cfg_end_date a = Some e
    /\ outcome_for w a s e = Returned r.
Proof.
  destruct (cfg_start_date a) as [s|] eqn:Hs.
  2: { by rewrite check_availability_no_start. }
  destruct (cfg_end_date a) as [e|] eqn:He.
  2: { by rewrite (check_availability_no_end _ _ _ w a s). }
  rewrite (check_availability_run _ _ _ w a s e st Hs He).
  destruct (outcome_for w a s e) as [r|ex] eqn:Hout; [|done].
  intros _. by exists s, e, r.
Qed.

(** After a cycle that returned, over alerts with different names, the
    row of every alert whose fetch gave a frame holds its rendering. *)
Lemma cycle_settles w alerts : forall st st1,
  NoDup (map alert_name_of alerts) ->
  (forall a, In a alerts -> alert_name_of a <> None) ->
  run_alerts w alerts st = (st1, Returned tt) ->
  forall a, In a alerts ->
    exists s e r,
      cfg_start_date a = Some s /\ cfg_end_date a = Some e
      /\ outcome_for w a s e = Returned r
      /\ forall df, r = Frame df ->
           select_last_result (db st1) (alert_name_of a)
           = Some (to_string df).
Proof.
  induction alerts as [|a0 rest IH];
    intros st st1 Hnames Htext Hrun a Hin; [done|].
  cbn [map] in Hnames. apply NoDup_cons in Hnames as [Hfresh Hnames].
  rewrite run_alerts_cons in Hrun.
  destruct (check_availability w a0 st) as [sta [[]|ex]] eqn:Hcheck;
    [|done].
  destruct Hin as [<- | Hin].
  2: { apply (IH sta st1); try done. intros a' Ha'. apply Htext. by right. }
  destruct (check_returned w a0 st sta Hcheck) as (s & e & r & Hs & He & Hout).
  exists s, e, r. repeat split; try done. intros df ->.
  replace st1 with (fst (run_alerts w rest sta)) by by rewrite Hrun.
  rewrite run_alerts_other_rows by (by rewrite <- list_elem_of_In).
  replace sta with (fst (check_availability w a0 st)) by by rewrite Hcheck.
  apply (ChangeProperties.check_stores re_search reformat_date to_string
           w a0 s e); try done.
  apply Htext. by left.
Qed.

(** A cycle over alerts whose rows hold their renderings writes and
    dispatches nothing, and returns. *)
Lemma settled_cycle_is_idle w alerts : forall st,
  (forall a, In a alerts ->
     exists s e r,
       cfg_start_date a = Some s /\ cfg_end_date a = Some e
       /\ outcome_for w a s e = Returned r
       /\ forall df, r = Frame df ->
            select_last_result (db st) (alert_name_of a)
            = Some (to_string df)) ->
  snd (run_alerts w alerts st) = Returned tt
  /\ db (fst (run_alerts w alerts st)) = db st
  /\ commits (trace (fst (run_alerts w alerts st))) = commits (trace st)
  /\ pushes (trace (fst (run_alerts w alerts st))) = pushes (trace st).
Proof.
  induction alerts as [|a rest IH]; intros st Hsettled; [done|].
  destruct (Hsettled a) as (s & e & r & Hs & He & Hout & Hrow); [by left|].
  assert (Hcheck : exists evs,
            check_availability w a st
            = (mkState (db st) (trace st ++ evs), Returned tt)
            /\ commits evs = [] /\ pushes evs = []).
  { assert (Hquiet : commits (events_for w a s e) = []
                     /\ pushes (events_for w a s e) = []).
    { destruct (fetch_events_shape w s e (cfg_room_type a)
                  (default false (cfg_exclude_non_wdw a))
                  (cfg_resort_names a)) as [-> | [url ->]]; done. }
    destruct Hquiet as [Hc Hp].
    destruct r as [text|df].
    - exists (events_for w a s e ++ [Print text]).
      rewrite (check_availability_run _ _ _ w a s e st Hs He), Hout.
      by rewrite commits_app, pushes_app, Hc, Hp.
    - exists (events_for w a s e).
      by rewrite (ChangeProperties.check_idle re_search reformat_date
                    to_string w a s e st df Hs He Hout (Hrow df eq_refl)). }
  destruct Hcheck as (evs & Hcheck & Hc & Hp).
  rewrite run_alerts_cons, Hcheck.
  destruct (IH (mkState (db st) (trace st ++ evs))) as (H1 & H2 & H3 & H4).
  { intros a' Hin. apply Hsettled. by right. }
  rewrite H1, H2, H3, H4. cbn.
  by rewrite commits_app, pushes_app, Hc, Hp, !app_nil_r.
Qed.

(** X18: after a poll cycle that returned, over alerts with different
    names none of which is null, a second poll cycle on the same fetched
    data returns as well, and writes and dispatches nothing. *)
Theorem repeated_cycle_is_silent w w' alerts st st1 :
  NoDup (map alert_name_of alerts) ->
  (forall a, In a alerts -> alert_name_of a <> None) ->
  (forall url, requests_get w' url = requests_get w url) ->
  run_alerts w alerts st = (st1, Returned tt) ->
  snd (run_alerts w' alerts st1) = Returned tt
  /\ db (fst (run_alerts w' alerts st1)) = db st1
  /\ commits (trace (fst (run_alerts w' alerts st1))) = commits (trace st1)
  /\ pushes (trace (fst (run_alerts w' alerts st1))) = pushes (trace st1).
Proof.
  intros Hnames Htext Hsame Hrun. apply settled_cycle_is_idle.
  intros a Hin.
  destruct (cycle_settles w alerts st st1 Hnames Htext Hrun a Hin)
    as (s & e & r & Hs & He & Hout & Hrow).
  exists s, e, r. repeat split; try done.
  by rewrite (ChangeProperties.outcome_same_service re_search reformat_date
                w w' a s e Hsame).
Qed.

End WithLibraries.

End RunProperties.

(* ===================================================================== *)
(** ** The further properties at work on the sample inputs *)
(* ===================================================================== *)

Module MoreExamples.
Import Text Re Script Samples.

#[local] Abbreviation fetch := (fetch_resort_info fragment_search iso_to_compact).
#[local] Abbreviation check :=
  (check_availability fragment_search iso_to_compact render).
#[local] Abbreviation cycle := (run_alerts fragment_search iso_to_compact render).
#[local] Abbreviation loop := (Script.main fragment_search iso_to_compact render).

(** A write under "A" leaves what is read under "B". *)
Lemma stored_result_is_read_back_witness :
  let st := mkState [mkStored (Some "B") "kept"] [] in
  snd (fetch_last_result (Some "B")
         (fst (update_last_result (Some "A") "new" st)))
  = snd (fetch_last_result (Some "B") st).
Proof.
  intros st.
  destruct (StoreProperties.stored_result_is_read_back
              (Some "A") "new" (Some "B") st) as (_ & _ & H).
  apply H. discriminate.
Defined.

(** Two writes under "A" into a table that holds a row of "B". *)
Lemma upsert_keeps_one_row_per_name_witness :
  let st := mkState [mkStored (Some "B") "kept"] [] in
  let st1 := fst (update_last_result (Some "A") "first" st) in
  let st2 := fst (update_last_result (Some "A") "second" st1) in
  db st2 = db (fst (update_last_result (Some "A") "second" st))
  /\ length (db st2) = length (db st1).
Proof.
  intros st st1 st2.
  destruct (StoreProperties.upsert_keeps_one_row_per_name
              (Some "A") "first" "second" st) as (H & _).
  apply H. discriminate.
Defined.

Lemma empty_answer_raises_KeyError_witness :
  snd (fetch (serving []) "2025-07-01" "2025-07-05" (Some "studio") true
         None fresh)
  = Raised (KeyError "Availability").
Proof.
  apply (FetchProperties.empty_answer_raises_KeyError
           fragment_search iso_to_compact (serving [])
           "2025-07-01" "2025-07-05" "20250701" "20250705" (ok_response []));
    reflexivity.
Defined.

(** An answer with status 503 and a body that is no JSON. *)
Lemma transport_failures_witness :
  snd (fetch (world (Some (mkResponse 503 NotJson)) true)
         "2025-07-01" "2025-07-05" None false None fresh)
  = Returned (Message ("Error fetching data: " +:+ pretty 503%Z)).
Proof.
  refine (proj1 (proj2
    (FetchProperties.transport_failures
       fragment_search iso_to_compact (world (Some (mkResponse 503 NotJson)) true)
       "2025-07-01" "2025-07-05" "20250701" "20250705" None false None fresh
       _ _)) (mkResponse 503 NotJson) _ _);
    [reflexivity | reflexivity | reflexivity | discriminate].
Defined.

Lemma returned_rows_keep_the_order_of_the_answer_witness :
  studio_rows `sublist_of` map row_of_entry inventory.
Proof.
  apply (FetchProperties.returned_rows_keep_the_order_of_the_answer
           fragment_search iso_to_compact (serving inventory)
           "2025-07-01" "2025-07-05" "20250701" "20250705"
           (ok_response inventory) inventory (Some "studio") false None fresh);
    [reflexivity | reflexivity | reflexivity | reflexivity
    | vm_compute; reflexivity].
Defined.




Lemma missing_date_key_raises_at_once_witness :
  let a := mkAlert (Some (Some "A")) None (Some "2025-07-05") None None None
             None in
  check (serving inventory) a fresh = (fresh, Raised (KeyError "start_date")).
Proof.
  intros a.
  apply (proj1 (RunProperties.missing_date_key_raises_at_once
                  fragment_search iso_to_compact render
                  (serving inventory) a fresh)).
  reflexivity.
Defined.

(** The request fails: nothing is written. *)
Lemma only_a_failed_dispatch_follows_a_write_witness :
  let a := alert (Some "A") None (Some credentials) in
  let w := world None true in
  db (fst (check w a fresh)) = db fresh.
Proof.
  intros a w.
  destruct (RunProperties.only_a_failed_dispatch_follows_a_write
              fragment_search iso_to_compact render w a fresh ConnectionError)
    as [[H _] | [H _]]; [vm_compute; reflexivity | discriminate H | exact H].
Defined.

Lemma first_check_on_a_new_database_writes_witness :
  let a := alert (Some "Test") (Some "studio") None in
  let st' := fst (check (serving inventory) a
                    (mkState (initialize_db None) [])) in
  db st' = [mkStored (Some "Test") (render studio_rows)]
  /\ commits (trace st') = commits [] ++ [(Some "Test", render studio_rows)].
Proof.
  intros a.
  apply (RunProperties.first_check_on_a_new_database_writes
           fragment_search iso_to_compact render (serving inventory) a
           "2025-07-01" "2025-07-05" [] studio_rows);
    [reflexivity | reflexivity | vm_compute; reflexivity].
Defined.

Lemma main_touches_only_configured_rows_witness :
  let st := mkState [mkStored (Some "Other") "old"] [] in
  let alerts := [alert (Some "A") None None] in
  select_last_result
    (db (fst (loop [serving inventory; serving []] alerts st))) (Some "Other")
  = select_last_result (db st) (Some "Other").
Proof.
  intros st alerts.
  apply (proj1 (RunProperties.main_touches_only_configured_rows
                  fragment_search iso_to_compact render
                  [serving inventory; serving []] alerts st)).
  intros [H | []]. discriminate H.
Defined.

Lemma one_request_per_alert_and_one_sleep_per_cycle_witness :
  let alerts := [alert (Some "A") None None; alert (Some "B") None None] in
  let cycles := [serving inventory; serving inventory] in
  sleeps (trace (fst (loop cycles alerts fresh)))
  = sleeps (trace fresh) ++ replicate (length cycles) 300%Z.
Proof.
  intros alerts cycles.
  apply (proj1 (proj2
    (RunProperties.one_request_per_alert_and_one_sleep_per_cycle
       fragment_search iso_to_compact render cycles alerts fresh))).
  vm_compute. reflexivity.
Defined.

Lemma no_alerts_only_prints_and_sleeps_witness :
  script fragment_search iso_to_compact render None (Mapping None)
    [serving inventory]
  = (mkState (initialize_db None)
       [Print "Checking availability at 2025-06-01 09:00:00...";
        Sleep 300],
     Returned tt)
  /\ script fragment_search iso_to_compact render None (Mapping (Some None))
       [serving inventory]
     = (mkState (initialize_db None)
          [Print "Checking availability at 2025-06-01 09:00:00..."],
        Raised TypeError).
Proof.
  split.
  - apply (proj1 (RunProperties.no_alerts_only_prints_and_sleeps
                    fragment_search iso_to_compact render None (Mapping None)
                    [serving inventory])).
    left. reflexivity.
  - apply (proj2 (RunProperties.no_alerts_only_prints_and_sleeps
                    fragment_search iso_to_compact render None
                    (Mapping (Some None)) [serving inventory])
             (serving inventory) [] TypeError); [reflexivity|].
    left. split; reflexivity.
Defined.

Lemma repeated_cycle_is_silent_witness :
  let alerts := [alert (Some "A") (Some "studio") (Some credentials);
                 alert (Some "B") None None] in
  let w := serving inventory in
  let st1 := fst (cycle w alerts fresh) in
  snd (cycle w alerts st1) = Returned tt
  /\ db (fst (cycle w alerts st1)) = db st1
  /\ commits (trace (fst (cycle w alerts st1))) = commits (trace st1)
  /\ pushes (trace (fst (cycle w alerts st1))) = pushes (trace st1).
Proof.
  intros alerts w st1.
  apply (RunProperties.repeated_cycle_is_silent
           fragment_search iso_to_compact render w w alerts fresh st1).
  - apply (bool_decide_unpack _). vm_compute. exact I.
  - intros a [<- | [<- | []]]; discriminate.
  - reflexivity.
  - vm_compute. reflexivity.
Defined.

(** The same two cycles over one alert whose [name] entry has no value:
    its name is different from every other name of the list, yet the
    second cycle writes and dispatches again. *)
Lemma null_name_is_never_settled :
  let alerts := [null_named (Some "studio") (Some credentials)] in
  let w := serving inventory in
  let st1 := fst (cycle w alerts fresh) in
  NoDup (map alert_name_of alerts)
  /\ snd (cycle w alerts fresh) = Returned tt
  /\ length (db (fst (cycle w alerts st1))) = S (length (db st1))
  /\ length (commits (trace (fst (cycle w alerts st1))))
     = S (length (commits (trace st1)))
  /\ length (pushes (trace (fst (cycle w alerts st1))))
     = S (length (pushes (trace st1))).
Proof.
  split; [apply (bool_decide_unpack _); vm_compute; exact I|].
  vm_compute. auto.
Qed.

End MoreExamples.
